(** * The filter-and-summarize engine of [analysis_tab.py]

    A shallow embedding of the last part of [display_analysis]: the
    per-field filter conditions, their conjunction [all_conditions], the
    three-way [describe] comparison table and the choice of the
    distribution chart; and of the column work of
    [preprocess_insurance_data] and [plotly_filtered_claims_bar].
    The numbers read from the file are rationals ([Q]); a missing value
    (pandas [NaN]) is [None] or [NaN].  What pandas computes from them
    in binary64 enters through the interface [numerics]; the instance
    [exact] computes the same statistics in exact arithmetic. *)

From Stdlib Require Import List String Ascii ZArith QArith Qround Bool Lia Arith.
From Stdlib Require Import Lqa Sorted.
From Stdlib Require Import Permutation.
Import ListNotations.

Local Open Scope string_scope.
Local Open Scope Q_scope.

(** ** Data model *)

(** A value of a categorical column: text, a number ([bodily_injuries],
    [auto_year]) or missing. *)
Inductive cell : Type :=
| Str (s : string)
| Num (q : Q)
| NaN.

(** One row of the preprocessed claims file, restricted to the columns
    that the filter panel and the summary read. *)
Record record : Type := mkRecord {
  age : option Q;
  gender : cell;
  accident_type : cell;
  collision_type : cell;
  incident_severity : cell;
  authorities_contacted : cell;
  state : cell;
  property_damage : cell;
  bodily_injuries : cell;
  police_report_available : cell;
  auto_make : cell;
  auto_model : cell;
  auto_year : cell;
  claim_amount : Q
}.

(** A frame is a list of rows, each carrying its index label.
    [pd.read_csv] labels the rows 0, 1, 2, ... *)
Definition frame (A : Type) : Type := list (nat * A).

Definition read_csv {A : Type} (rows : list A) : frame A :=
  combine (seq 0 (List.length rows)) rows.

Definition column {A B : Type} (f : A -> B) (d : frame A) : list B :=
  map (fun x => f (snd x)) d.

Definition labels {A : Type} (d : frame A) : list nat := map fst d.

(** [d.reset_index()] seen from the index: fresh labels 0, 1, 2, ... *)
Definition reset_index {A : Type} (d : frame A) : frame A :=
  read_csv (map snd d).

(** [shape[0]] *)
Definition shape0 {A : Type} (d : frame A) : nat := List.length d.

(** ** Conditions

    A filter condition is a boolean Series over the rows or, for a
    deactivated selector, the Python scalar [True]. *)
Inductive cond : Type :=
| Scalar (b : bool)
| Series (m : list bool).

(** The operator [&]: elementwise on two Series, broadcast for a scalar. *)
Definition cond_and (a b : cond) : cond :=
  match a, b with
  | Scalar x, Scalar y => Scalar (x && y)
  | Scalar x, Series m => Series (map (fun y => x && y) m)
  | Series m, Scalar y => Series (map (fun x => x && y) m)
  | Series m, Series n => Series (map (fun p => fst p && snd p) (combine m n))
  end.

Infix "&" := cond_and (at level 40, left associativity).

(** Python truth value of a selected option, as tested by [if status:].
    A float [nan] is true; the number zero and the empty text are false. *)
Definition truthy (c : cell) : bool :=
  match c with
  | Str s => negb (String.eqb s "")
  | Num q => negb (Qeq_bool q 0)
  | NaN => true
  end.

(** Elementwise [==] of a column value with the chosen option.  A missing
    value is equal to nothing, itself included. *)
Definition cell_eqb (a b : cell) : bool :=
  match a, b with
  | Str s, Str t => String.eqb s t
  | Num p, Num q => Qeq_bool p q
  | _, _ => false
  end.

(** Comparison of a possibly missing number with an integer bound:
    [NaN >= k] and [NaN <= k] are both false. *)
Definition ge_int (a : option Q) (k : Z) : bool :=
  match a with
  | Some q => Qle_bool (inject_Z k) q
  | None => false
  end.

Definition le_int (a : option Q) (k : Z) : bool :=
  match a with
  | Some q => Qle_bool q (inject_Z k)
  | None => false
  end.

(** The state of the filter panel: the two ends of the age slider and, for
    each select box, the chosen option ([None] is the first entry of every
    box). *)
Record selections : Type := mkSelections {
  min_age : Z;
  max_age : Z;
  gender_type_status : option cell;
  accident_type_type_status : option cell;
  collision_type_status : option cell;
  incident_severity_type_status : option cell;
  authorities_contacted_type_status : option cell;
  state_type_status : option cell;
  property_damage_type_status : option cell;
  bodily_injuries_type_status : option cell;
  police_report_available_type_status : option cell;
  auto_make_type_status : option cell;
  auto_model_type_status : option cell;
  auto_year_type_status : option cell
}.

(** [age_condition = (data["age"] >= min_age) & (data["age"] <= max_age)] *)
Definition age_condition (data : frame record) (lo hi : Z) : cond :=
  Series (map (fun a => ge_int a lo) (column age data))
  & Series (map (fun a => le_int a hi) (column age data)).

(** The block repeated for every select box:
    [if status: condition = (data[col] == status) else: condition = True]. *)
Definition field_condition (col : record -> cell) (data : frame record)
           (status : option cell) : cond :=
  match status with
  | Some v =>
      if truthy v
      then Series (map (fun c => cell_eqb c v) (column col data))
      else Scalar true
  | None => Scalar true
  end.

(** [all_conditions], the conjunction in the order of the source. *)
Definition all_conditions (data : frame record) (ui : selections) : cond :=
  age_condition data (min_age ui) (max_age ui)
  & field_condition gender data (gender_type_status ui)
  & field_condition accident_type data (accident_type_type_status ui)
  & field_condition collision_type data (collision_type_status ui)
  & field_condition incident_severity data (incident_severity_type_status ui)
  & field_condition authorities_contacted data
      (authorities_contacted_type_status ui)
  & field_condition state data (state_type_status ui)
  & field_condition property_damage data (property_damage_type_status ui)
  & field_condition bodily_injuries data (bodily_injuries_type_status ui)
  & field_condition police_report_available data
      (police_report_available_type_status ui)
  & field_condition auto_make data (auto_make_type_status ui)
  & field_condition auto_model data (auto_model_type_status ui)
  & field_condition auto_year data (auto_year_type_status ui).

(** ** Errors *)

Inductive exn : Type :=
| ValueError
| KeyError
| IndexError
| AttributeError.

Inductive result (A : Type) : Type :=
| Ok (a : A)
| Raise (e : exn).

Arguments Ok {A} a.
Arguments Raise {A} e.

Definition bind {A B : Type} (r : result A) (k : A -> result B) : result B :=
  match r with
  | Ok a => k a
  | Raise e => Raise e
  end.

Notation "x <- r ;; k" := (bind r (fun x => k))
  (at level 61, r at next level, right associativity).

(** ** Boolean indexing *)

(** [~cond]: elementwise on a Series.  The complement of the Python
    scalar [True] is the integer -2, which names no column of the frame
    once it is used as an index. *)
Definition cond_not (c : cond) : result (list bool) :=
  match c with
  | Series m => Ok (map negb m)
  | Scalar _ => Raise KeyError
  end.

(** [data[mask]] for a boolean Series: the rows whose entry is true, with
    their labels; a Series of another length is refused. *)
Definition getitem {A : Type} (d : frame A) (m : list bool) : result (frame A) :=
  if Nat.eqb (List.length m) (List.length d)
  then Ok (map fst (filter snd (combine d m)))
  else Raise IndexError.

(** [data[c]] for a condition: a scalar is looked up as a column name and
    is not one. *)
Definition getitem_cond {A : Type} (d : frame A) (c : cond) : result (frame A) :=
  match c with
  | Series m => getitem d m
  | Scalar _ => Raise KeyError
  end.

(** [data[all_conditions]] and [data[~all_conditions]] *)
Definition selected_data (data : frame record) (ui : selections)
  : result (frame record) :=
  getitem_cond data (all_conditions data ui).

Definition excluded_data (data : frame record) (ui : selections)
  : result (frame record) :=
  negated <- cond_not (all_conditions data ui) ;;
  getitem data negated.

(** ** Descriptive statistics of a numeric Series, in exact arithmetic

    The statistics of pandas computed over the rationals, without the
    rounding errors of binary64; they make the instance [exact] of the
    interface [numerics] below. *)

Fixpoint insert_sorted (x : Q) (l : list Q) : list Q :=
  match l with
  | [] => [x]
  | y :: t => if Qle_bool x y then x :: l else y :: insert_sorted x t
  end.

Definition sort_values (s : list Q) : list Q :=
  fold_right insert_sorted [] s.

Definition series_max (s : list Q) : option Q :=
  match s with
  | [] => None
  | x :: t => Some (fold_left (fun m y => if Qle_bool m y then y else m) t x)
  end.

Definition series_min (s : list Q) : option Q :=
  match s with
  | [] => None
  | x :: t => Some (fold_left (fun m y => if Qle_bool y m then y else m) t x)
  end.

Definition series_mean (s : list Q) : option Q :=
  match s with
  | [] => None
  | _ :: _ => Some (fold_right Qplus 0 s / inject_Z (Z.of_nat (List.length s)))
  end.

(** [s.quantile(q)] with the default linear interpolation, computed
    exactly: the value at the virtual position [(n - 1) * q] of the
    sorted values. *)
Definition quantile (s : list Q) (q : Q) : option Q :=
  match sort_values s with
  | [] => None
  | (x :: _) as a =>
      let h := inject_Z (Z.of_nat (List.length a - 1)) * q in
      let j := Z.to_nat (Qfloor h) in
      let g := h - inject_Z (Qfloor h) in
      let lo := nth j a x in
      let hi := nth (Nat.min (S j) (List.length a - 1)) a x in
      Some (lo + (hi - lo) * g)
  end.

(** Round half to even, as [numpy.rint], on an exact number. *)
Definition rint (x : Q) : Z :=
  let f := Qfloor x in
  match Qcompare (x - inject_Z f) (1 # 2) with
  | Lt => f
  | Gt => (f + 1)%Z
  | Eq => if Z.even f then f else (f + 1)%Z
  end.

(** [x.round(2)] on one exact value; a missing value stays missing. *)
Definition round2 (x : option Q) : option Q :=
  match x with
  | Some q => Some (inject_Z (rint (q * 100)) / 100)
  | None => None
  end.

(** Arithmetic and comparison of possibly missing numbers: a missing
    operand makes the difference missing and the comparison false. *)
Definition nan_sub (a b : option Q) : option Q :=
  match a, b with
  | Some x, Some y => Some (x - y)
  | _, _ => None
  end.

Definition Qlt_bool (x y : Q) : bool := negb (Qle_bool y x).

Definition nan_gt (a b : option Q) : bool :=
  match a, b with
  | Some x, Some y => Qlt_bool y x
  | _, _ => false
  end.

Definition nan_lt (a b : option Q) : bool := nan_gt b a.

(** The whole part of a number: truncation toward zero. *)
Definition truncate (q : Q) : Z :=
  if Qle_bool 0 q then Qfloor q else Qceiling q.

(** Whether an integer fits a signed 64-bit integer. *)
Definition in_int64 (z : Z) : bool :=
  (- 2 ^ 63 <=? z)%Z && (z <? 2 ^ 63)%Z.

(** ** Small frames: merge, column assignment, label mapping, drop, iloc *)

(** [pd.DataFrame(series).reset_index()]: the index of the Series becomes
    the column "index", the rows are labelled 0, 1, 2, ... *)
Definition series_to_frame {C : Type} (s : list (string * C))
  : frame (string * C) := read_csv s.

(** [left.merge(right)] on one text column: inner join, in the order of
    the keys of [left]; the result is labelled 0, 1, 2, ... *)
Definition merge {A B C : Type} (ka : A -> string) (kb : B -> string)
           (mk : A -> B -> C) (l : frame A) (r : frame B) : frame C :=
  read_csv
    (flat_map
       (fun a => map (mk a)
                   (filter (fun b => String.eqb (ka a) (kb b)) (map snd r)))
       (map snd l)).

(** [d[name] = values] for an array of values: positional, and refused
    when the lengths differ. *)
Definition set_column {A B : Type} (d : frame A) (v : list B)
  : result (frame (A * B)) :=
  if Nat.eqb (List.length v) (List.length d)
  then Ok (map (fun p => (fst (fst p), (snd (fst p), snd p))) (combine d v))
  else Raise ValueError.

(** The dictionary given to [Series.map]. *)
Definition statistic_names : list (string * string) :=
  [ ("count", "Number of Rows");
    ("mean", "Average Value");
    ("std", "Standard Deviation");
    ("min", "Minimum Value");
    ("25%", "25th Percentile Value");
    ("50%", "Median Value");
    ("75%", "75th Percentile Value");
    ("max", "Maximum Value") ].

(** Lookup in a dictionary; [Series.map] turns an absent key into a
    missing value. *)
Fixpoint dict_get (d : list (string * string)) (k : string) : option string :=
  match d with
  | [] => None
  | (k', v) :: t => if String.eqb k k' then Some v else dict_get t k
  end.

(** [d.drop(lbl)]: removes the rows labelled [lbl]; an absent label is an
    error. *)
Definition drop {A : Type} (lbl : nat) (d : frame A) : result (frame A) :=
  if existsb (Nat.eqb lbl) (labels d)
  then Ok (filter (fun r => negb (Nat.eqb (fst r) lbl)) d)
  else Raise KeyError.

(** [d.iloc[positions, :]]: the rows at the given positions, in the given
    order; a position past the end is an error. *)
Fixpoint iloc {A : Type} (positions : list nat) (d : frame A)
  : result (frame A) :=
  match positions with
  | [] => Ok []
  | p :: ps =>
      match nth_error d p with
      | Some r => rest <- iloc ps d ;; Ok (r :: rest)
      | None => Raise IndexError
      end
  end.

(** A row of the comparison table; [C] is the type of its three numeric
    cells and [L] the type of the statistic's name, text before the
    mapping and possibly missing after it. *)
Record row (C L : Type) : Type := mkRow {
  Statistic : L;
  Selected_Data : C;
  Excluded_Data : C;
  All_Data : C
}.

Arguments mkRow {C L} _ _ _ _.
Arguments Statistic {C L} _.
Arguments Selected_Data {C L} _.
Arguments Excluded_Data {C L} _.
Arguments All_Data {C L} _.

(** What the filter panel hands to the page: whether the small-sample
    note is written, the comparison table, and, when distribution plots
    are drawn, the rows and the title suffix given to both the histogram
    and the box plot. *)
Record output_of (C : Type) : Type := mkOutput {
  warning : bool;
  description_table : frame (row C (option string));
  distribution : option (frame record * string)
}.

Arguments mkOutput {C} _ _ _.
Arguments warning {C} _.
Arguments description_table {C} _.
Arguments distribution {C} _.

(** ** Options offered by the select boxes *)

(** Sameness of two values for [unique()]: all missing values count as
    one. *)
Definition cell_same (a b : cell) : bool :=
  match a, b with
  | NaN, NaN => true
  | _, _ => cell_eqb a b
  end.

(** [s.unique()]: the distinct values in the order of first appearance. *)
Fixpoint unique_aux (seen : list cell) (s : list cell) : list cell :=
  match s with
  | [] => []
  | c :: t =>
      if existsb (cell_same c) seen then unique_aux seen t
      else c :: unique_aux (c :: seen) t
  end.

Definition unique (s : list cell) : list cell := unique_aux [] s.

Definition dropna (s : list cell) : list cell :=
  filter (fun c => match c with NaN => false | _ => true end) s.

(** [[None] + list(data[col].unique())] *)
Definition options (col : record -> cell) (data : frame record)
  : list (option cell) :=
  None :: map Some (unique (column col data)).

(** The box of [authorities_contacted] drops the missing values first. *)
Definition options_dropna (col : record -> cell) (data : frame record)
  : list (option cell) :=
  None :: map Some (unique (dropna (column col data))).

(** The present values of a numeric column; [min()] and [max()] skip the
    missing ones. *)
Fixpoint present (s : list (option Q)) : list Q :=
  match s with
  | [] => []
  | Some q :: t => q :: present t
  | None :: t => present t
  end.

(** ** The arithmetic of pandas

    The statistics, the rounding and the skew test are computed by pandas
    and numpy on binary64 numbers.  The panel is embedded over an
    interface of these routines, so that what is proved of it holds for
    whatever they compute.  The claim values themselves are read from the
    file; every finite binary64 number is a rational. *)
Record numerics : Type := mkNumerics {
  (** a computed number: a binary64 value, the missing value included *)
  num : Type;
  (** [s.count()], [s.mean()], [s.min()], [s.max()], [s.quantile(q)] *)
  count_of : list Q -> num;
  mean_of : list Q -> num;
  min_of : list Q -> num;
  max_of : list Q -> num;
  quantile_of : list Q -> Q -> num;
  (** [x.round(2)] *)
  round_of : num -> num;
  (** [x - y], [x > y] and, for a claim value [c], [c < y] *)
  sub : num -> num -> num;
  gt : num -> num -> bool;
  below : Q -> num -> bool
}.

(** The same routines in exact arithmetic: the statistics over the
    rationals, with linear interpolation for the quantiles and rounding
    half to even.  An idealisation of the binary64 routines: it agrees
    with them up to their rounding errors. *)
Definition exact : numerics :=
  {| num := option Q;
     count_of := fun s => Some (inject_Z (Z.of_nat (List.length s)));
     mean_of := series_mean;
     min_of := series_min;
     max_of := series_max;
     quantile_of := quantile;
     round_of := round2;
     sub := nan_sub;
     gt := nan_gt;
     below := fun c y => nan_lt (Some c) y |}.

(** ** The filter panel and the summary *)

Section Pipeline.

Variable N : numerics.

(** The sample standard deviation, taken as given like the other
    routines.  Its row is dropped from the table. *)
Variable std : list Q -> num N.

(** [s.describe()] of a numeric Series: eight statistics under their
    pandas names. *)
Definition describe_with (s : list Q) : list (string * num N) :=
  [ ("count", count_of N s);
    ("mean", mean_of N s);
    ("std", std s);
    ("min", min_of N s);
    ("25%", quantile_of N s (1 # 4));
    ("50%", quantile_of N s (1 # 2));
    ("75%", quantile_of N s (3 # 4));
    ("max", max_of N s) ].

(** [.round(2)] of a described Series or of its frame: the numeric
    column is rounded, the names are kept. *)
Definition round_values_with (s : list (string * num N))
  : list (string * num N) :=
  map (fun p => (fst p, round_of N (snd p))) s.

(** The comparison table built from the selected rows, the excluded
    rows and all rows. *)
Definition comparison_table_with (data selected excluded : frame record)
  : result (frame (row (num N) (option string))) :=
  let selected_description :=
    series_to_frame
      (round_values_with (describe_with (column claim_amount selected))) in
  let excluded_description :=
    map (fun r => (fst r, (fst (snd r), round_of N (snd (snd r)))))
        (series_to_frame (describe_with (column claim_amount excluded))) in
  let description_table :=
    reset_index
      (merge fst fst (fun a b => (fst a, snd a, snd b))
             selected_description excluded_description) in
  describe_df <-
    set_column
      (map (fun r => (fst r, fst (fst (snd r)))) description_table)
      (map (fun p => round_of N (snd p))
           (describe_with (column claim_amount data))) ;;
  let description_table :=
    merge (fun a => fst (fst a)) fst
          (fun a b => mkRow (fst (fst a)) (snd (fst a)) (snd a) (snd b))
          description_table describe_df in
  let description_table :=
    map (fun r =>
           (fst r,
            mkRow (dict_get statistic_names (Statistic (snd r)))
                  (Selected_Data (snd r)) (Excluded_Data (snd r))
                  (All_Data (snd r))))
        description_table in
  description_table <- drop 2 description_table ;;
  iloc [0; 2; 3; 4; 1; 5; 6]%nat description_table.

(** The choice of the distribution plots for the selected rows. *)
Definition distribution_plots_with (selected : frame record)
  : result (option (frame record * string)) :=
  if (10 <=? shape0 selected)%nat then
    let claims := column claim_amount selected in
    let distribution_skew_condition :=
      gt N (sub N (max_of N claims) (quantile_of N claims (9 # 10)))
           (sub N (quantile_of N claims (9 # 10))
                  (quantile_of N claims (3 # 4))) in
    if distribution_skew_condition then
      hist_data <-
        getitem selected
          (map (fun c => below N c (quantile_of N claims (9 # 10)))
               claims) ;;
      Ok (Some (hist_data, "Selected Data without Extreme Outliers"))
    else Ok (Some (selected, "Selected Data"))
  else Ok None.

(** The part of [display_analysis] below "Try Out Multiple Filters". *)
Definition display_analysis_with (rows : list record) (ui : selections)
  : result (output_of (num N)) :=
  let data := read_csv rows in
  selected <- selected_data data ui ;;
  excluded <- excluded_data data ui ;;
  description_table <- comparison_table_with data selected excluded ;;
  let warning := (shape0 selected <=? 10)%nat in
  plots <- distribution_plots_with selected ;;
  Ok (mkOutput warning description_table plots).

End Pipeline.

(** The output of the panel in exact arithmetic. *)
Definition output : Type := output_of (option Q).

(** The choice of the distribution plots in exact arithmetic. *)
Definition distribution_plots (selected : frame record)
  : result (option (frame record * string)) :=
  distribution_plots_with exact selected.

Section Analysis.

(** The sample standard deviation is an irrational number in general;
    it is taken as given. *)
Variable std : list Q -> option Q.

(** The integer that stands for a missing age when a slider is closed
    on the age of a record. *)
Variable nan_as_int : Z.

(** The integer that the cast [astype(int)] makes of a number it cannot
    represent, a missing value or a value outside the 64-bit range; it
    depends on the platform. *)
Variable unrepresentable : option Q -> Z.

(** The panel in exact arithmetic. *)
Definition describe (s : list Q) : list (string * option Q) :=
  describe_with exact std s.

Definition comparison_table (data selected excluded : frame record)
  : result (frame (row (option Q) (option string))) :=
  comparison_table_with exact std data selected excluded.

Definition display_analysis (rows : list record) (ui : selections)
  : result output :=
  display_analysis_with exact std rows ui.

(** The whole number of an age: truncation toward zero. *)
Definition astype_int (x : option Q) : Z :=
  match x with
  | Some q => truncate q
  | None => nan_as_int
  end.

(** [x.astype(int)] on a binary64 number: truncation toward zero into a
    64-bit integer. *)
Definition astype_int64 (x : option Q) : Z :=
  match x with
  | Some q =>
      if in_int64 (truncate q) then truncate q else unrepresentable x
  | None => unrepresentable None
  end.

(** The initial value of the age slider:
    [(data["age"].min().astype(int), data["age"].max().astype(int))].
    On a file without rows the column holds no number, its minimum is a
    plain Python float and has no method [astype]. *)
Definition slider_default (data : frame record) : result (Z * Z) :=
  match data with
  | [] => Raise AttributeError
  | _ :: _ =>
      Ok (astype_int64 (series_min (present (column age data))),
          astype_int64 (series_max (present (column age data))))
  end.

(** The panel as first shown: the slider at its initial value and every
    select box at index 0, the entry [None]. *)
Definition default_selections (data : frame record) : result selections :=
  span <- slider_default data ;;
  Ok {| min_age := fst span;
        max_age := snd span;
        gender_type_status := None;
        accident_type_type_status := None;
        collision_type_status := None;
        incident_severity_type_status := None;
        authorities_contacted_type_status := None;
        state_type_status := None;
        property_damage_type_status := None;
        bodily_injuries_type_status := None;
        police_report_available_type_status := None;
        auto_make_type_status := None;
        auto_model_type_status := None;
        auto_year_type_status := None |}.

End Analysis.

(** ** Row-wise reading of the conditions

    The conditions of the source are whole columns.  The definitions
    below read them one row at a time; the theorems relate the two. *)

(** Whether a row passes the block of one select box. *)
Definition field_pass (col : record -> cell) (status : option cell)
           (r : record) : bool :=
  match status with
  | Some v => if truthy v then cell_eqb (col r) v else true
  | None => true
  end.

Definition age_pass (lo hi : Z) (r : record) : bool :=
  ge_int (age r) lo && le_int (age r) hi.

(** Whether a row passes every condition, in the order of
    [all_conditions]. *)
Definition row_selected (ui : selections) (r : record) : bool :=
  age_pass (min_age ui) (max_age ui) r
  && field_pass gender (gender_type_status ui) r
  && field_pass accident_type (accident_type_type_status ui) r
  && field_pass collision_type (collision_type_status ui) r
  && field_pass incident_severity (incident_severity_type_status ui) r
  && field_pass authorities_contacted (authorities_contacted_type_status ui) r
  && field_pass state (state_type_status ui) r
  && field_pass property_damage (property_damage_type_status ui) r
  && field_pass bodily_injuries (bodily_injuries_type_status ui) r
  && field_pass police_report_available
       (police_report_available_type_status ui) r
  && field_pass auto_make (auto_make_type_status ui) r
  && field_pass auto_model (auto_model_type_status ui) r
  && field_pass auto_year (auto_year_type_status ui) r.

(** The selections that name one record: the slider closed on its age
    and every box on its value. *)
Definition selections_of_record (nan_as_int : Z) (r : record) : selections :=
  {| min_age := astype_int nan_as_int (age r);
     max_age := astype_int nan_as_int (age r);
     gender_type_status := Some (gender r);
     accident_type_type_status := Some (accident_type r);
     collision_type_status := Some (collision_type r);
     incident_severity_type_status := Some (incident_severity r);
     authorities_contacted_type_status := Some (authorities_contacted r);
     state_type_status := Some (state r);
     property_damage_type_status := Some (property_damage r);
     bodily_injuries_type_status := Some (bodily_injuries r);
     police_report_available_type_status := Some (police_report_available r);
     auto_make_type_status := Some (auto_make r);
     auto_model_type_status := Some (auto_model r);
     auto_year_type_status := Some (auto_year r) |}.

Definition is_missing (c : cell) : bool :=
  match c with
  | NaN => true
  | _ => false
  end.

(** No select box reads a missing value from this record. *)
Definition no_missing_category (r : record) : bool :=
  negb (is_missing (gender r) || is_missing (accident_type r)
        || is_missing (collision_type r) || is_missing (incident_severity r)
        || is_missing (authorities_contacted r) || is_missing (state r)
        || is_missing (property_damage r) || is_missing (bodily_injuries r)
        || is_missing (police_report_available r)
        || is_missing (auto_make r) || is_missing (auto_model r)
        || is_missing (auto_year r)).

(** One row of the finished table: its label in the merged frame, the
    displayed name, and a statistic taken over the three populations and
    rounded. *)
Definition table_row (lbl : nat) (name : string) (stat : list Q -> option Q)
           (selected excluded data : frame record)
  : nat * row (option Q) (option string) :=
  (lbl,
   mkRow (Some name)
         (round2 (stat (column claim_amount selected)))
         (round2 (stat (column claim_amount excluded)))
         (round2 (stat (column claim_amount data)))).

Definition series_count (s : list Q) : option Q :=
  Some (inject_Z (Z.of_nat (List.length s))).

(** The table that the page shows. *)
Definition shown_table (selected excluded data : frame record)
  : frame (row (option Q) (option string)) :=
  [ table_row 0 "Number of Rows" series_count selected excluded data;
    table_row 3 "Minimum Value" series_min selected excluded data;
    table_row 4 "25th Percentile Value" (fun s => quantile s (1 # 4))
              selected excluded data;
    table_row 5 "Median Value" (fun s => quantile s (1 # 2))
              selected excluded data;
    table_row 1 "Average Value" series_mean selected excluded data;
    table_row 6 "75th Percentile Value" (fun s => quantile s (3 # 4))
              selected excluded data;
    table_row 7 "Maximum Value" series_max selected excluded data ].

(** ** Sample data *)

Definition sample_record (a : option Q) (sex : cell) (injuries : cell)
           (claim : Q) : record :=
  {| age := a;
     gender := sex;
     accident_type := Str "Single Vehicle Collision";
     collision_type := Str "Front Collision";
     incident_severity := Str "Minor Damage";
     authorities_contacted := Str "Police";
     state := Str "NY";
     property_damage := Str "NO";
     bodily_injuries := injuries;
     police_report_available := Str "YES";
     auto_make := Str "Saab";
     auto_model := Str "93";
     auto_year := Num 2004;
     claim_amount := claim |}.

(** Ten claims with one extreme value. *)
Definition skewed_rows : list record :=
  map (fun c => sample_record (Some 30) (Str "Male") (Num 1) (inject_Z c))
      [1; 2; 3; 4; 5; 6; 7; 8; 9; 1000]%Z.

(** Three claims with 0, 1 and 2 bodily injuries. *)
Definition injury_rows : list record :=
  [ sample_record (Some 30) (Str "Male") (Num 0) 100;
    sample_record (Some 41) (Str "Female") (Num 1) 200;
    sample_record (Some 52) (Str "Male") (Num 2) 300 ].

(** Three claims, the last without an age. *)
Definition missing_age_rows : list record :=
  [ sample_record (Some 30) (Str "Male") (Num 1) 100;
    sample_record (Some 41) (Str "Female") (Num 1) 200;
    sample_record None (Str "Female") (Num 1) 300 ].

(** Two claims, the first without a gender. *)
Definition missing_gender_rows : list record :=
  [ sample_record (Some 30) NaN (Num 1) 100;
    sample_record (Some 41) (Str "Male") (Num 1) 200 ].

(** Two claims, the second with an age that is not a whole number. *)
Definition fractional_age_rows : list record :=
  [ sample_record (Some 30) (Str "Male") (Num 1) 100;
    sample_record (Some (83 # 2)) (Str "Male") (Num 1) 200 ].


(** A cast that makes the smallest 64-bit integer of every number it
    cannot represent. *)
Definition int64_min (x : option Q) : Z := (- 2 ^ 63)%Z.

Definition no_std (s : list Q) : option Q := None.

(** Every box at [None] and the slider at the given ends. *)
Definition age_only (lo hi : Z) : selections :=
  mkSelections lo hi None None None None None None None None None None
               None None.

(** As [age_only], with the box of bodily injuries at a value. *)
Definition injuries_chosen (lo hi : Z) (v : cell) : selections :=
  mkSelections lo hi None None None None None None None (Some v) None None
               None None.

(** ** Preprocessing of the columns *)

(** The edges and the names of the age brackets of
    [preprocess_insurance_data]. *)
Definition bins : list Z := [15; 20; 25; 30; 35; 40; 45; 50; 55; 60; 65]%Z.

Definition bracket_labels : list string :=
  [ "15-20"; "20-25"; "25-30"; "30-35"; "35-40"; "40-45"; "45-50"; "50-55";
    "55-60"; "60-65" ].

(** [edges.searchsorted(x, side="left")] on increasing edges: the
    position of the first edge that is not below [x]. *)
Fixpoint searchsorted (edges : list Z) (x : Q) : nat :=
  match edges with
  | [] => 0%nat
  | k :: t => if Qlt_bool (inject_Z k) x then S (searchsorted t x) else 0%nat
  end.

(** [pd.cut(x, bins=edges, labels=names)] on one value, with the default
    intervals closed on the right and open on the left: a missing value, a
    value at or below the first edge and a value above the last edge get
    no bracket. *)
Definition cut (x : option Q) (edges : list Z) (names : list string)
  : option string :=
  match x with
  | None => None
  | Some q =>
      let ids := searchsorted edges q in
      if Nat.eqb ids 0 || Nat.eqb ids (List.length edges)
      then None
      else nth_error names (ids - 1)
  end.

(** [data["age_bracket"]] of one row. *)
Definition age_bracket (a : option Q) : option string :=
  cut a bins bracket_labels.

(** [s.replace(c, by)] of Python for a one-character pattern. *)
Fixpoint str_replace (c : Ascii.ascii) (by_text : string) (s : string)
  : string :=
  match s with
  | EmptyString => EmptyString
  | String a t =>
      if Ascii.eqb a c
      then by_text ++ str_replace c by_text t
      else String a (str_replace c by_text t)
  end.

(** [data["collision_type"].str.replace("?", "Unattended Vehicle")] on one
    value of the text column; the accessor [.str] leaves a missing value
    missing and makes a value that is no text missing. *)
Definition replace_collision_type (c : cell) : cell :=
  match c with
  | Str s => Str (str_replace "?"%char "Unattended Vehicle" s)
  | Num _ => NaN
  | NaN => NaN
  end.

(** Whether a character occurs in a text. *)
Fixpoint occurs (c : Ascii.ascii) (s : string) : bool :=
  match s with
  | EmptyString => false
  | String a t => Ascii.eqb a c || occurs c t
  end.

(** ** The bar comparison *)

(** [s.isin(values)] on one name; a missing name is in no list. *)
Definition isin (values : list string) (s : option string) : bool :=
  match s with
  | Some v => existsb (String.eqb v) values
  | None => false
  end.

(** The frame that [plotly_filtered_claims_bar] gives to the bar chart:
    [data[data["Statistic"].isin(["Average Value", "Median Value"])]]. *)
Definition plotly_filtered_claims_bar {C : Type}
           (data : frame (row C (option string)))
  : frame (row C (option string)) :=
  filter (fun r => isin ["Average Value"; "Median Value"] (Statistic (snd r)))
         data.

(** ** Vocabulary of the further properties *)

(** The options chosen in the twelve select boxes, in the order of the
    page. *)
Definition chosen_options (ui : selections) : list (option cell) :=
  [ gender_type_status ui; accident_type_type_status ui;
    collision_type_status ui; incident_severity_type_status ui;
    authorities_contacted_type_status ui; state_type_status ui;
    property_damage_type_status ui; bodily_injuries_type_status ui;
    police_report_available_type_status ui; auto_make_type_status ui;
    auto_model_type_status ui; auto_year_type_status ui ].

(** The same boxes with the slider moved to other ends. *)
Definition set_age_range (ui : selections) (lo hi : Z) : selections :=
  {| min_age := lo;
     max_age := hi;
     gender_type_status := gender_type_status ui;
     accident_type_type_status := accident_type_type_status ui;
     collision_type_status := collision_type_status ui;
     incident_severity_type_status := incident_severity_type_status ui;
     authorities_contacted_type_status :=
       authorities_contacted_type_status ui;
     state_type_status := state_type_status ui;
     property_damage_type_status := property_damage_type_status ui;
     bodily_injuries_type_status := bodily_injuries_type_status ui;
     police_report_available_type_status :=
       police_report_available_type_status ui;
     auto_make_type_status := auto_make_type_status ui;
     auto_model_type_status := auto_model_type_status ui;
     auto_year_type_status := auto_year_type_status ui |}.

(** A column of the shown table whose seven cells are all present, with
    the minimum, the three quartiles and the maximum in increasing
    order. *)
Definition summary_ordered (cells : list (option Q)) : Prop :=
  exists n mn p25 md avg p75 mx,
    cells = [ Some n; Some mn; Some p25; Some md; Some avg; Some p75;
              Some mx ]
    /\ mn <= p25 /\ p25 <= md /\ md <= p75 /\ p75 <= mx.

(** The body of [quantile]: the value at the virtual position [h] of
    the sorted values [a], read with the default [x]. *)
Definition interpolate (a : list Q) (x : Q) (h : Q) : Q :=
  let j := Z.to_nat (Qfloor h) in
  let g := h - inject_Z (Qfloor h) in
  let lo := nth j a x in
  let hi := nth (Nat.min (S j) (List.length a - 1)) a x in
  lo + (hi - lo) * g.

(** The count shown in the first row of a column of the table. *)
Definition shown_count (cells : list (option Q)) : option Q :=
  match cells with
  | c :: _ => c
  | [] => None
  end.

(** Ten claims of the same value. *)
Definition equal_rows : list record :=
  map (fun _ => sample_record (Some 30) (Str "Male") (Num 1) 500)
      (seq 0 10).

(** Values of the column of collision types as read from the file. *)
Definition raw_collision_types : list cell :=
  [ Str "Rear Collision"; Str "?"; NaN ].

(** * Properties *)

(** ** Conditions, row by row *)

Lemma series_and_series {A : Type} (f g : A -> bool) (d : list A) :
  Series (map f d) & Series (map g d) = Series (map (fun x => f x && g x) d).
Proof.
  unfold cond_and. f_equal.
  induction d as [|x d IH]; simpl; [reflexivity|].
  now rewrite IH.
Qed.

Lemma series_and_true {A : Type} (f : A -> bool) (d : list A) :
  Series (map f d) & Scalar true = Series (map (fun x => f x && true) d).
Proof.
  unfold cond_and. now rewrite map_map.
Qed.

Lemma age_condition_rows (data : frame record) (lo hi : Z) :
  age_condition data lo hi
  = Series (map (fun x => age_pass lo hi (snd x)) data).
Proof.
  unfold age_condition, column. rewrite !map_map.
  apply (series_and_series (fun x => ge_int (age (snd x)) lo)
                           (fun x => le_int (age (snd x)) hi)).
Qed.

Lemma and_field_condition (f : nat * record -> bool) (col : record -> cell)
      (data : frame record) (status : option cell) :
  Series (map f data) & field_condition col data status
  = Series (map (fun x => f x && field_pass col status (snd x)) data).
Proof.
  unfold field_condition, field_pass, column.
  destruct status as [v|]; [destruct (truthy v)|].
  - rewrite map_map.
    apply (series_and_series f (fun x => cell_eqb (col (snd x)) v)).
  - apply series_and_true.
  - apply series_and_true.
Qed.

(** The conjunction of the source is a Series, the row-wise reading of
    the conditions along the frame. *)
Lemma all_conditions_rows (data : frame record) (ui : selections) :
  all_conditions data ui
  = Series (map (fun x => row_selected ui (snd x)) data).
Proof.
  unfold all_conditions. rewrite age_condition_rows.
  rewrite !and_field_condition. reflexivity.
Qed.

(** ** Boolean indexing is filtering *)

Lemma getitem_map {A : Type} (f : nat * A -> bool) (d : frame A) :
  getitem d (map f d) = Ok (filter f d).
Proof.
  unfold getitem. rewrite length_map, Nat.eqb_refl. f_equal.
  induction d as [|x d IH]; simpl; [reflexivity|].
  destruct (f x); simpl; now rewrite IH.
Qed.

Lemma selected_data_filter (data : frame record) (ui : selections) :
  selected_data data ui
  = Ok (filter (fun x => row_selected ui (snd x)) data).
Proof.
  unfold selected_data. rewrite all_conditions_rows. simpl.
  apply getitem_map.
Qed.

Lemma excluded_data_filter (data : frame record) (ui : selections) :
  excluded_data data ui
  = Ok (filter (fun x => negb (row_selected ui (snd x))) data).
Proof.
  unfold excluded_data. rewrite all_conditions_rows. simpl.
  rewrite map_map.
  apply (getitem_map (fun x => negb (row_selected ui (snd x)))).
Qed.

(** ** The frame read from the file *)

Lemma labels_read_csv {A : Type} (rows : list A) :
  labels (read_csv rows) = seq 0 (List.length rows).
Proof.
  unfold labels, read_csv.
  generalize 0%nat. induction rows as [|r rows IH]; intros n; simpl.
  - reflexivity.
  - now rewrite IH.
Qed.

Lemma shape0_read_csv {A : Type} (rows : list A) :
  shape0 (read_csv rows) = List.length rows.
Proof.
  unfold shape0, read_csv. rewrite length_combine, length_seq. lia.
Qed.

Lemma NoDup_labels_read_csv {A : Type} (rows : list A) :
  NoDup (labels (read_csv rows)).
Proof.
  rewrite labels_read_csv. apply seq_NoDup.
Qed.

Lemma in_read_csv {A : Type} (rows : list A) (i : nat) (r : A) :
  nth_error rows i = Some r -> In (i, r) (read_csv rows).
Proof.
  unfold read_csv. intros H.
  assert (G : forall n l, nth_error l i = Some r ->
                          In ((n + i)%nat, r) (combine (seq n (List.length l)) l)).
  { clear. induction i as [|i IH]; intros n [|x l] H; simpl in *;
      try discriminate.
    - left. inversion H. f_equal. lia.
    - right. replace (n + S i)%nat with (S n + i)%nat by lia. now apply IH. }
  apply (G 0%nat rows H).
Qed.

(** ** Filtering splits a frame *)

Lemma filter_split_perm {A : Type} (f : A -> bool) (d : list A) :
  Permutation (filter f d ++ filter (fun x => negb (f x)) d) d.
Proof.
  induction d as [|x d IH]; simpl; [constructor|].
  destruct (f x); simpl.
  - now constructor.
  - symmetry. apply Permutation_cons_app. now symmetry.
Qed.

Lemma filter_split_length {A : Type} (f : A -> bool) (d : list A) :
  (List.length (filter f d) + List.length (filter (fun x => negb (f x)) d)
   = List.length d)%nat.
Proof.
  rewrite <- length_app. apply Permutation_length, filter_split_perm.
Qed.

(** ** The comparison table *)

Section Table.

Variable std : list Q -> option Q.

(** The two merges, the mapping of the names, the drop of row 2 and the
    reordering succeed on any three populations and give the table of
    seven rows. *)
Lemma comparison_table_shown (data selected excluded : frame record) :
  comparison_table std data selected excluded
  = Ok (shown_table selected excluded data).
Proof.
  unfold comparison_table, comparison_table_with, round_values_with,
    describe_with, shown_table, table_row, series_count.
  cbn [exact num count_of mean_of min_of max_of quantile_of round_of].
  generalize (column claim_amount selected) as s.
  generalize (column claim_amount excluded) as e.
  generalize (column claim_amount data) as a.
  intros a e s.
  generalize (series_mean s), (series_mean e), (series_mean a).
  generalize (series_min s), (series_min e), (series_min a).
  generalize (series_max s), (series_max e), (series_max a).
  generalize (std s), (std e), (std a).
  generalize (quantile s (1 # 4)), (quantile e (1 # 4)), (quantile a (1 # 4)).
  generalize (quantile s (1 # 2)), (quantile e (1 # 2)), (quantile a (1 # 2)).
  generalize (quantile s (3 # 4)), (quantile e (3 # 4)), (quantile a (3 # 4)).
  generalize (Some (inject_Z (Z.of_nat (List.length s)))).
  generalize (Some (inject_Z (Z.of_nat (List.length e)))).
  generalize (Some (inject_Z (Z.of_nat (List.length a)))).
  intros. reflexivity.
Qed.

End Table.

(** ** The statistics of a Series that is not empty *)

Lemma Qlt_bool_iff (x y : Q) : Qlt_bool x y = true <-> x < y.
Proof.
  unfold Qlt_bool. rewrite negb_true_iff. split.
  - intros H. apply Qnot_le_lt. intros L.
    apply Qle_bool_iff in L. congruence.
  - intros H. destruct (Qle_bool y x) eqn:E; [|reflexivity].
    apply Qle_bool_iff in E. exfalso. now apply (Qlt_not_le x y).
Qed.

Lemma insert_sorted_length (x : Q) (l : list Q) :
  List.length (insert_sorted x l) = S (List.length l).
Proof.
  induction l as [|y l IH]; simpl; [reflexivity|].
  destruct (Qle_bool x y); simpl; [reflexivity|now rewrite IH].
Qed.

Lemma sort_values_length (s : list Q) :
  List.length (sort_values s) = List.length s.
Proof.
  induction s as [|x s IH]; simpl; [reflexivity|].
  now rewrite insert_sorted_length, IH.
Qed.

Lemma quantile_defined (s : list Q) (q : Q) :
  s <> [] -> exists p, quantile s q = Some p.
Proof.
  intros H. unfold quantile.
  destruct (sort_values s) as [|x a] eqn:E.
  - apply (f_equal (@List.length Q)) in E.
    rewrite sort_values_length in E. destruct s; [congruence|discriminate].
  - eexists. reflexivity.
Qed.

Lemma series_max_defined (s : list Q) :
  s <> [] -> exists m, series_max s = Some m.
Proof.
  destruct s as [|x t]; [congruence|]. intros _. eexists. reflexivity.
Qed.

Lemma column_nonempty {A B : Type} (f : A -> B) (d : frame A) :
  (0 < shape0 d)%nat -> column f d <> [].
Proof.
  destruct d; simpl; [unfold shape0; simpl; lia|discriminate].
Qed.

(** ** The distribution plots *)

Lemma distribution_plots_small (selected : frame record) :
  (shape0 selected < 10)%nat -> distribution_plots selected = Ok None.
Proof.
  intros H. unfold distribution_plots, distribution_plots_with.
  cbn [exact num max_of quantile_of sub gt below].
  destruct (10 <=? shape0 selected)%nat eqn:E; [|reflexivity].
  apply Nat.leb_le in E. lia.
Qed.

(** From ten rows on the three statistics of the test exist, and the
    plots are decided by the strict comparison of the two spreads. *)
Lemma distribution_plots_large (selected : frame record) :
  (10 <= shape0 selected)%nat ->
  exists mx p90 p75,
    series_max (column claim_amount selected) = Some mx
    /\ quantile (column claim_amount selected) (9 # 10) = Some p90
    /\ quantile (column claim_amount selected) (3 # 4) = Some p75
    /\ distribution_plots selected
       = Ok (Some
               (if Qlt_bool (p90 - p75) (mx - p90)
                then (filter (fun x => Qlt_bool (claim_amount (snd x)) p90)
                             selected,
                      "Selected Data without Extreme Outliers")
                else (selected, "Selected Data"))).
Proof.
  intros H.
  assert (NE : column claim_amount selected <> [])
    by (apply column_nonempty; lia).
  destruct (series_max_defined _ NE) as [mx Hmx].
  destruct (quantile_defined _ (9 # 10) NE) as [p90 H90].
  destruct (quantile_defined _ (3 # 4) NE) as [p75 H75].
  exists mx, p90, p75. repeat split; try assumption.
  unfold distribution_plots, distribution_plots_with.
  cbn [exact num max_of quantile_of sub gt below].
  apply Nat.leb_le in H. rewrite H, Hmx, H90, H75. simpl.
  destruct (Qlt_bool (p90 - p75) (mx - p90)); [|reflexivity].
  unfold column. rewrite map_map.
  rewrite (getitem_map (fun x => Qlt_bool (claim_amount (snd x)) p90)).
  reflexivity.
Qed.

Lemma distribution_plots_total (selected : frame record) :
  exists plots, distribution_plots selected = Ok plots.
Proof.
  destruct (Nat.lt_ge_cases (shape0 selected) 10) as [H|H].
  - exists None. now apply distribution_plots_small.
  - destruct (distribution_plots_large selected H)
      as (mx & p90 & p75 & _ & _ & _ & E).
    eexists. exact E.
Qed.

(** ** The whole panel *)

Section Panel.

Variable std : list Q -> option Q.

(** The panel never raises: it writes the note up to ten selected
    rows, shows the table of seven rows and the plots chosen for the
    selected rows. *)
Lemma display_analysis_run (rows : list record) (ui : selections)
      (plots : option (frame record * string)) :
  let data := read_csv rows in
  let selected := filter (fun x => row_selected ui (snd x)) data in
  let excluded := filter (fun x => negb (row_selected ui (snd x))) data in
  distribution_plots selected = Ok plots ->
  display_analysis std rows ui
  = Ok (mkOutput (shape0 selected <=? 10)%nat
                 (shown_table selected excluded data) plots).
Proof.
  intros data selected excluded H.
  unfold display_analysis, display_analysis_with.
  rewrite selected_data_filter. cbn [bind].
  rewrite excluded_data_filter. cbn [bind].
  fold (comparison_table std). rewrite comparison_table_shown. cbn [bind].
  fold data. fold selected. fold (distribution_plots selected).
  rewrite H. reflexivity.
Qed.

End Panel.

(** ** Minimum, maximum and the integer cast *)

Lemma fold_min_le (t : list Q) (x : Q) :
  let m := fold_left (fun m y => if Qle_bool y m then y else m) t x in
  m <= x /\ forall y, In y t -> m <= y.
Proof.
  revert x. induction t as [|z t IH]; intros x; simpl.
  - split; [apply Qle_refl|tauto].
  - destruct (Qle_bool z x) eqn:E.
    + apply Qle_bool_iff in E. destruct (IH z) as [H1 H2]. split.
      * eapply Qle_trans; eassumption.
      * intros y [<-|Hy]; auto.
    + assert (L : x <= z).
      { apply Qlt_le_weak, Qnot_le_lt. intros C.
        apply Qle_bool_iff in C. congruence. }
      destruct (IH x) as [H1 H2]. split; [assumption|].
      intros y [<-|Hy]; [eapply Qle_trans; eassumption|auto].
Qed.

Lemma fold_max_ge (t : list Q) (x : Q) :
  let m := fold_left (fun m y => if Qle_bool m y then y else m) t x in
  x <= m /\ forall y, In y t -> y <= m.
Proof.
  revert x. induction t as [|z t IH]; intros x; simpl.
  - split; [apply Qle_refl|tauto].
  - destruct (Qle_bool x z) eqn:E.
    + apply Qle_bool_iff in E. destruct (IH z) as [H1 H2]. split.
      * eapply Qle_trans; eassumption.
      * intros y [<-|Hy]; auto.
    + assert (L : z <= x).
      { apply Qlt_le_weak, Qnot_le_lt. intros C.
        apply Qle_bool_iff in C. congruence. }
      destruct (IH x) as [H1 H2]. split; [assumption|].
      intros y [<-|Hy]; [eapply Qle_trans; eassumption|auto].
Qed.

Lemma series_min_le (s : list Q) (q : Q) :
  In q s -> exists m, series_min s = Some m /\ m <= q.
Proof.
  destruct s as [|x t]; [contradiction|]. intros H.
  eexists. split; [reflexivity|].
  destruct (fold_min_le t x) as [H1 H2].
  destruct H as [<-|H]; auto.
Qed.

Lemma series_max_ge (s : list Q) (q : Q) :
  In q s -> exists m, series_max s = Some m /\ q <= m.
Proof.
  destruct s as [|x t]; [contradiction|]. intros H.
  eexists. split; [reflexivity|].
  destruct (fold_max_ge t x) as [H1 H2].
  destruct H as [<-|H]; auto.
Qed.

Lemma in_present (s : list (option Q)) (q : Q) :
  In (Some q) s -> In q (present s).
Proof.
  induction s as [|[x|] s IH]; simpl; intros H.
  - contradiction.
  - destruct H as [H|H]; [left; congruence|right; auto].
  - destruct H as [H|H]; [discriminate|auto].
Qed.

(** The cast of a lower bound of a whole number is still a lower
    bound, and likewise above: truncation moves a bound toward zero but
    never across a whole number. *)
Lemma truncate_lower (m : Q) (z : Z) :
  m <= inject_Z z -> inject_Z (truncate m) <= inject_Z z.
Proof.
  intros H. unfold truncate. destruct (Qle_bool 0 m).
  - eapply Qle_trans; [apply Qfloor_le|exact H].
  - rewrite <- Zle_Qle. rewrite <- (Qceiling_Z z).
    now apply Qceiling_resp_le.
Qed.

Lemma truncate_upper (m : Q) (z : Z) :
  inject_Z z <= m -> inject_Z z <= inject_Z (truncate m).
Proof.
  intros H. unfold truncate. destruct (Qle_bool 0 m).
  - rewrite <- Zle_Qle. rewrite <- (Qfloor_Z z).
    now apply Qfloor_resp_le.
  - eapply Qle_trans; [exact H|apply Qle_ceiling].
Qed.

Lemma age_pass_whole (lo hi : Z) (r : record) (q : Q) (z : Z) :
  age r = Some q -> q == inject_Z z ->
  inject_Z lo <= inject_Z z -> inject_Z z <= inject_Z hi ->
  age_pass lo hi r = true.
Proof.
  intros Ha Hq Hlo Hhi. unfold age_pass, ge_int, le_int. rewrite Ha.
  apply andb_true_iff. split; apply Qle_bool_iff; rewrite Hq; assumption.
Qed.

Lemma age_pass_present (lo hi : Z) (r : record) :
  age_pass lo hi r = true -> age r <> None.
Proof.
  unfold age_pass, ge_int. destruct (age r); [discriminate|].
  simpl. discriminate.
Qed.

(** ** One select box *)

Lemma cell_eqb_refl (c : cell) : is_missing c = false -> cell_eqb c c = true.
Proof.
  destruct c as [s|q|]; simpl; intros H.
  - apply String.eqb_refl.
  - apply Qeq_bool_iff. reflexivity.
  - discriminate.
Qed.

Lemma field_pass_self (col : record -> cell) (r : record) :
  is_missing (col r) = false -> field_pass col (Some (col r)) r = true.
Proof.
  intros H. unfold field_pass.
  destruct (truthy (col r)); [now apply cell_eqb_refl|reflexivity].
Qed.

(** A choice that Python takes for true filters by equality. *)
Lemma field_condition_active (col : record -> cell) (data : frame record)
      (v : cell) :
  truthy v = true ->
  field_condition col data (Some v)
  = Series (map (fun x => cell_eqb (col (snd x)) v) data).
Proof.
  intros H. unfold field_condition, column. rewrite H.
  now rewrite map_map.
Qed.

(** A choice that Python takes for false leaves the box inert. *)
Lemma field_condition_falsy (col : record -> cell) (data : frame record)
      (v : cell) :
  truthy v = false -> field_condition col data (Some v) = Scalar true.
Proof.
  intros H. unfold field_condition. now rewrite H.
Qed.

Lemma filter_all {A : Type} (f : A -> bool) (d : list A) :
  (forall x, In x d -> f x = true) -> filter f d = d.
Proof.
  induction d as [|x d IH]; simpl; intros H; [reflexivity|].
  rewrite (H x) by now left.
  f_equal. apply IH. intros y Hy. apply H. now right.
Qed.

Lemma filter_none_negb {A : Type} (f : A -> bool) (d : list A) :
  filter f d = [] -> filter (fun x => negb (f x)) d = d.
Proof.
  induction d as [|x d IH]; simpl; [reflexivity|].
  destruct (f x); simpl; [discriminate|].
  intros H. now rewrite IH.
Qed.

(** * The claims *)

Section Claims.

Variable std : list Q -> option Q.

(** C2.  For every mask over the rows, the frame indexed by the mask and
    by its complement, the comparison table is built without error and
    has exactly seven rows, named in this order: Number of Rows, Minimum
    Value, 25th Percentile Value, Median Value, Average Value, 75th
    Percentile Value, Maximum Value.  The row of the standard deviation
    is gone, and each row holds its statistic (rounded to two decimals)
    over the selected rows, the excluded rows and all rows. *)
Theorem comparison_table_seven_rows (rows : list record) (mask : list bool) :
  List.length mask = List.length rows ->
  exists selected excluded table,
    getitem (read_csv rows) mask = Ok selected
    /\ getitem (read_csv rows) (map negb mask) = Ok excluded
    /\ comparison_table std (read_csv rows) selected excluded = Ok table
    /\ List.length table = 7%nat
    /\ map (fun r => Statistic (snd r)) table
       = [ Some "Number of Rows"; Some "Minimum Value";
           Some "25th Percentile Value"; Some "Median Value";
           Some "Average Value"; Some "75th Percentile Value";
           Some "Maximum Value" ]
    /\ table = shown_table selected excluded (read_csv rows).
Proof.
  intros Hlen.
  assert (L : List.length mask = List.length (read_csv rows)).
  { fold (shape0 (read_csv rows)). now rewrite shape0_read_csv. }
  unfold getitem. rewrite length_map, L, Nat.eqb_refl.
  do 3 eexists. split; [reflexivity|]. split; [reflexivity|].
  split; [apply comparison_table_shown|].
  repeat split.
Qed.

(** C3.  For every state of the panel, the selected rows and the
    excluded rows are both defined, together they are the rows of the
    dataset (each row once), no label and no row is in both, and the two
    counts add up to the number of rows. *)
Theorem mask_partition (rows : list record) (ui : selections) :
  exists selected excluded,
    selected_data (read_csv rows) ui = Ok selected
    /\ excluded_data (read_csv rows) ui = Ok excluded
    /\ Permutation (selected ++ excluded) (read_csv rows)
    /\ NoDup (labels selected ++ labels excluded)
    /\ (forall x, In x selected -> ~ In x excluded)
    /\ (shape0 selected + shape0 excluded = List.length rows)%nat.
Proof.
  rewrite selected_data_filter, excluded_data_filter.
  do 2 eexists. split; [reflexivity|]. split; [reflexivity|].
  split; [apply filter_split_perm|].
  split; [|split].
  - unfold labels. rewrite <- map_app.
    eapply Permutation_NoDup.
    + symmetry. apply Permutation_map. apply filter_split_perm.
    + apply NoDup_labels_read_csv.
  - intros x H1 H2. apply filter_In in H1, H2.
    destruct H1 as [_ H1], H2 as [_ H2]. rewrite H1 in H2. discriminate.
  - unfold shape0. rewrite filter_split_length.
    apply shape0_read_csv.
Qed.

(** C4.  With fewer than ten selected rows (nine, for one) the panel
    draws no distribution plot; with ten or more it draws one, either of
    the trimmed rows or of all selected rows. *)
Theorem small_sample_guard (rows : list record) (ui : selections) :
  exists out selected,
    display_analysis std rows ui = Ok out
    /\ selected_data (read_csv rows) ui = Ok selected
    /\ ((shape0 selected < 10)%nat -> distribution out = None)
    /\ ((10 <= shape0 selected)%nat ->
        exists p90,
          quantile (column claim_amount selected) (9 # 10) = Some p90
          /\ (distribution out
              = Some (filter (fun x => Qlt_bool (claim_amount (snd x)) p90)
                             selected,
                      "Selected Data without Extreme Outliers")
              \/ distribution out = Some (selected, "Selected Data"))).
Proof.
  destruct (distribution_plots_total
              (filter (fun x => row_selected ui (snd x)) (read_csv rows)))
    as [plots Hplots].
  eexists. eexists.
  split; [apply display_analysis_run; exact Hplots|].
  split; [apply selected_data_filter|].
  cbn [distribution]. split.
  - intros H. apply distribution_plots_small in H.
    rewrite H in Hplots. now injection Hplots as <-.
  - intros H.
    destruct (distribution_plots_large _ H)
      as (mx & p90 & p75 & _ & H90 & _ & E).
    exists p90. split; [exact H90|].
    rewrite E in Hplots. injection Hplots as <-.
    destruct (Qlt_bool (p90 - p75) (mx - p90)); [left|right]; reflexivity.
Qed.

(** C5, as amended.  The note on the small subset is written exactly
    when at most ten rows are selected: for every selection of ten rows
    or fewer, and for none of eleven rows or more. *)
Theorem small_sample_advisory (rows : list record) (ui : selections) :
  exists out selected,
    display_analysis std rows ui = Ok out
    /\ selected_data (read_csv rows) ui = Ok selected
    /\ (warning out = true <-> (shape0 selected <= 10)%nat).
Proof.
  destruct (distribution_plots_total
              (filter (fun x => row_selected ui (snd x)) (read_csv rows)))
    as [plots Hplots].
  eexists. eexists.
  split; [apply display_analysis_run; exact Hplots|].
  split; [apply selected_data_filter|].
  cbn [warning]. apply Nat.leb_le.
Qed.

End Claims.

(** C6, at the input where the code departs from it.  The box of bodily
    injuries offers the value 0, which the data contains.  Python takes
    a chosen 0 for false, so the box stays inert: the rows with one and
    with two injuries are selected as well, where the claim selects the
    rows with no injury only.  The choice of 1 does filter by
    equality. *)
Theorem zero_injuries_choice_is_inert :
  let data := read_csv injury_rows in
  In (Some (Num 0)) (options bodily_injuries data)
  /\ field_condition bodily_injuries data (Some (Num 0)) = Scalar true
  /\ all_conditions data (injuries_chosen 30 52 (Num 0))
     = Series [true; true; true]
  /\ selected_data data (injuries_chosen 30 52 (Num 0)) = Ok data
  /\ map (fun x => bodily_injuries (snd x)) data = [Num 0; Num 1; Num 2]
  /\ all_conditions data (injuries_chosen 30 52 (Num 1))
     = Series [false; true; false].
Proof.
  cbv zeta. repeat split.
  - right. left. reflexivity.
Qed.

(** C8.  When the conditions match no row, the panel still returns: the
    table has its seven rows, the column of the selected rows holds the
    count 0 and a missing value in every other cell, the columns of the
    excluded rows and of all rows both hold the (rounded) statistics of
    the whole dataset, and no distribution plot is drawn. *)
Theorem empty_selection_table (std : list Q -> option Q)
        (rows : list record) (ui : selections) :
  selected_data (read_csv rows) ui = Ok [] ->
  let whole :=
    map (fun stat => round2 (stat (column claim_amount (read_csv rows))))
        [ series_count; series_min; (fun s => quantile s (1 # 4));
          (fun s => quantile s (1 # 2)); series_mean;
          (fun s => quantile s (3 # 4)); series_max ] in
  exists out count,
    display_analysis std rows ui = Ok out
    /\ map (fun r => Statistic (snd r)) (description_table out)
       = [ Some "Number of Rows"; Some "Minimum Value";
           Some "25th Percentile Value"; Some "Median Value";
           Some "Average Value"; Some "75th Percentile Value";
           Some "Maximum Value" ]
    /\ map (fun r => Selected_Data (snd r)) (description_table out)
       = [ Some count; None; None; None; None; None; None ]
    /\ count == 0
    /\ map (fun r => Excluded_Data (snd r)) (description_table out) = whole
    /\ map (fun r => All_Data (snd r)) (description_table out) = whole
    /\ distribution out = None.
Proof.
  intros Hsel whole. rewrite selected_data_filter in Hsel.
  injection Hsel as Hsel.
  pose proof (filter_none_negb _ _ Hsel) as Hexc.
  eexists. eexists. split.
  { apply display_analysis_run. rewrite Hsel. reflexivity. }
  rewrite Hsel, Hexc. cbn [description_table distribution].
  repeat split.
Qed.

(** C9, as amended.  For a record of the dataset whose age is a whole
    number and none of whose twelve category values is missing, the
    selections that name its own values (the slider closed on its age,
    each box on its value) select it. *)
Theorem own_values_select_record (nan_as_int : Z) (rows : list record)
        (i : nat) (r : record) (q : Q) (z : Z) :
  nth_error rows i = Some r ->
  age r = Some q -> q == inject_Z z ->
  no_missing_category r = true ->
  exists selected,
    selected_data (read_csv rows) (selections_of_record nan_as_int r)
    = Ok selected
    /\ In (i, r) selected.
Proof.
  intros Hnth Ha Hq Hcat. rewrite selected_data_filter.
  eexists. split; [reflexivity|].
  apply filter_In. split; [now apply in_read_csv|].
  cbn [snd]. unfold no_missing_category in Hcat.
  rewrite negb_true_iff, !orb_false_iff in Hcat.
  destruct Hcat as
    [[[[[[[[[[[H1 H2] H3] H4] H5] H6] H7] H8] H9] H10] H11] H12].
  unfold row_selected, selections_of_record.
  cbn [min_age max_age gender_type_status
      accident_type_type_status collision_type_status
      incident_severity_type_status authorities_contacted_type_status
      state_type_status property_damage_type_status
      bodily_injuries_type_status police_report_available_type_status
      auto_make_type_status auto_model_type_status auto_year_type_status].
  rewrite !field_pass_self by assumption.
  rewrite !andb_true_r. rewrite Ha. cbn [astype_int].
  apply (age_pass_whole _ _ _ q z Ha Hq).
  - apply truncate_lower. rewrite <- Hq. apply Qle_refl.
  - apply truncate_upper. rewrite <- Hq. apply Qle_refl.
Qed.

(** * The claims on sample data *)

(** A mask over three rows that keeps the first and the last. *)
Lemma comparison_table_seven_rows_sample :
  exists selected excluded table,
    getitem (read_csv injury_rows) [true; false; true] = Ok selected
    /\ getitem (read_csv injury_rows) [false; true; false] = Ok excluded
    /\ labels selected = [0; 2]%nat
    /\ labels excluded = [1]%nat
    /\ comparison_table no_std (read_csv injury_rows) selected excluded
       = Ok table
    /\ List.length table = 7%nat.
Proof.
  destruct (comparison_table_seven_rows no_std injury_rows
              [true; false; true])
    as (selected & excluded & table & Hs & He & Ht & Hlen & _).
  - reflexivity.
  - exists selected, excluded, table.
    split; [exact Hs|]. split; [exact He|].
    vm_compute in Hs, He. injection Hs as <-. injection He as <-.
    split; [reflexivity|]. split; [reflexivity|].
    split; [exact Ht|exact Hlen].
Defined.

(** No row of the sample has age 0: the table is still shown. *)
Lemma empty_selection_table_sample :
  exists out,
    display_analysis no_std injury_rows (age_only 0 0) = Ok out
    /\ map (fun r => Selected_Data (snd r)) (description_table out)
       = [ Some (0 # 100); None; None; None; None; None; None ]
    /\ distribution out = None.
Proof.
  destruct (empty_selection_table no_std injury_rows (age_only 0 0))
    as (out & count & E & _ & Hsel & _ & _ & _ & Hd).
  - reflexivity.
  - exists out. split; [exact E|]. split; [|exact Hd].
    vm_compute in E. injection E as <-. reflexivity.
Defined.

(** The three sample rows split into the one aged 41 and the two
    others. *)
Lemma mask_partition_sample :
  exists selected excluded,
    selected_data (read_csv injury_rows) (age_only 35 45) = Ok selected
    /\ excluded_data (read_csv injury_rows) (age_only 35 45) = Ok excluded
    /\ labels selected = [1]%nat
    /\ labels excluded = [0; 2]%nat
    /\ (shape0 selected + shape0 excluded = 3)%nat.
Proof.
  destruct (mask_partition injury_rows (age_only 35 45))
    as (selected & excluded & Hs & He & _ & _ & _ & Hn).
  exists selected, excluded.
  split; [exact Hs|]. split; [exact He|].
  vm_compute in Hs, He. injection Hs as <-. injection He as <-.
  split; [reflexivity|]. split; [reflexivity|exact Hn].
Defined.

(** Three selected rows are fewer than ten: no distribution plot. *)
Lemma small_sample_guard_sample :
  exists out,
    display_analysis no_std injury_rows (age_only 30 52) = Ok out
    /\ distribution out = None.
Proof.
  destruct (small_sample_guard no_std injury_rows (age_only 30 52))
    as (out & selected & E & Hs & Hsmall & _).
  exists out. split; [exact E|].
  apply Hsmall. vm_compute in Hs. injection Hs as <-.
  vm_compute. repeat constructor.
Defined.

(** C5 fails on the code at ten rows.  The ten sample claims are all
    selected, the note on the small subset is written, and ten is not
    fewer than ten. *)
Lemma advisory_written_at_ten_rows :
  exists out selected,
    display_analysis no_std skewed_rows (age_only 30 30) = Ok out
    /\ selected_data (read_csv skewed_rows) (age_only 30 30) = Ok selected
    /\ shape0 selected = 10%nat
    /\ warning out = true
    /\ ~ (warning out = true <-> (shape0 selected < 10)%nat).
Proof.
  eexists. eexists.
  split; [vm_compute; reflexivity|].
  split; [vm_compute; reflexivity|].
  split; [reflexivity|]. split; [reflexivity|].
  intros [H _]. specialize (H eq_refl). vm_compute in H. lia.
Qed.

(** The second sample row, aged 41 with no missing value, is selected
    by its own values. *)
Lemma own_values_select_record_sample :
  exists selected,
    selected_data (read_csv injury_rows)
      (selections_of_record 0
         (sample_record (Some 41) (Str "Female") (Num 1) 200))
    = Ok selected
    /\ In (1%nat, sample_record (Some 41) (Str "Female") (Num 1) 200)
          selected.
Proof.
  apply (own_values_select_record 0 injury_rows 1
           (sample_record (Some 41) (Str "Female") (Num 1) 200) 41 41%Z);
    reflexivity.
Defined.

(** * Further properties *)

(** ** The age brackets *)

Lemma Qlt_bool_false (x y : Q) : Qlt_bool x y = false -> y <= x.
Proof.
  unfold Qlt_bool. rewrite negb_false_iff. apply Qle_bool_iff.
Qed.

(** One step along the edges: the comparison of [q] with the edge [b];
    when [q] is not above the edge the search stops and the goal is
    closed from the comparisons met so far. *)
Ltac edge b q :=
  let E := fresh "E" in
  destruct (Qlt_bool (inject_Z b) q) eqn:E;
  [ apply Qlt_bool_iff in E
  | apply Qlt_bool_false in E;
    cbn; unfold inject_Z in *;
    split; [intros ?; try discriminate; try lra; split; lra
           | intros [? ?]; try reflexivity; lra] ].

(** X1.  The brackets are closed on the right and open on the left: for
    each of the ten brackets, an age gets the name of bracket [k]
    exactly when it is above 15 + 5k and at most 20 + 5k.  So the age 20
    is in "15-20" and not in "20-25". *)
Theorem age_bracket_interval (q : Q) (k : nat) :
  (k < 10)%nat ->
  age_bracket (Some q) = nth_error bracket_labels k
  <-> inject_Z (15 + 5 * Z.of_nat k) < q
      /\ q <= inject_Z (20 + 5 * Z.of_nat k).
Proof.
  intros Hk. unfold age_bracket, cut, bins.
  cbn [searchsorted].
  destruct k as [|[|[|[|[|[|[|[|[|[|k]]]]]]]]]]; [..|lia];
  cbn [Z.of_nat Pos.of_succ_nat Pos.succ Z.mul Z.add Pos.mul Pos.add];
  edge 15%Z q; edge 20%Z q; edge 25%Z q; edge 30%Z q; edge 35%Z q;
  edge 40%Z q; edge 45%Z q; edge 50%Z q; edge 55%Z q; edge 60%Z q;
  edge 65%Z q.
  all: cbn; unfold inject_Z in *;
    (split; [intros ?; try discriminate; lra | intros [? ?]; lra]).
Qed.

(** X2.  A row gets no age bracket exactly when its age is missing, at
    most 15 or above 65.  The age 15 itself, the first edge, is in no
    bracket. *)
Theorem age_bracket_missing (a : option Q) :
  age_bracket a = None
  <-> a = None \/ exists q, a = Some q /\ (q <= 15 \/ 65 < q).
Proof.
  destruct a as [q|].
  - unfold age_bracket, cut, bins. cbn [searchsorted].
    assert (R : forall P : Prop,
               (P <-> q <= 15 \/ 65 < q) ->
               (P <-> Some q = None
                      \/ exists q0, Some q = Some q0 /\ (q0 <= 15 \/ 65 < q0))).
    { intros P HP. rewrite HP. split.
      - intros H. right. exists q. now split.
      - intros [H|(q0 & E & H)]; [discriminate|]. now injection E as ->. }
    apply R. clear R.
    destruct (Qlt_bool (inject_Z 15) q) eqn:E0;
      [apply Qlt_bool_iff in E0
      |apply Qlt_bool_false in E0; cbn; unfold inject_Z in *;
       split; [intros _; now left|reflexivity]].
    repeat
      match goal with
      | |- context [Qlt_bool (inject_Z ?b) q] =>
          let E := fresh "E" in
          destruct (Qlt_bool (inject_Z b) q) eqn:E;
          [ apply Qlt_bool_iff in E
          | apply Qlt_bool_false in E; cbn; unfold inject_Z in *;
            split; [discriminate|intros [?|?]; lra] ]
      end.
    cbn. unfold inject_Z in *. split; [intros _; now right|reflexivity].
  - split; [intros _; now left|reflexivity].
Qed.

(** ** The replacement in the collision types *)

Lemma occurs_app (c : ascii) (a b : string) :
  occurs c (a ++ b) = occurs c a || occurs c b.
Proof.
  induction a as [|x a IH]; simpl; [reflexivity|].
  now rewrite IH, orb_assoc.
Qed.

Lemma str_replace_clears (c : ascii) (by_text s : string) :
  occurs c by_text = false -> occurs c (str_replace c by_text s) = false.
Proof.
  intros H. induction s as [|a s IH]; simpl; [reflexivity|].
  destruct (Ascii.eqb a c) eqn:E.
  - now rewrite occurs_app, H, IH.
  - simpl. now rewrite E, IH.
Qed.

Lemma str_replace_absent (c : ascii) (by_text s : string) :
  occurs c s = false -> str_replace c by_text s = s.
Proof.
  induction s as [|a s IH]; simpl; [reflexivity|].
  destruct (Ascii.eqb a c); simpl; [discriminate|].
  intros H. now rewrite IH.
Qed.

(** X3.  After the replacement no collision type contains a question
    mark; a text without a question mark is unchanged; and replacing a
    second time changes nothing. *)
Theorem replace_collision_type_clean (c : cell) :
  (forall s, replace_collision_type c = Str s -> occurs "?" s = false)
  /\ (forall s, c = Str s -> occurs "?" s = false ->
                replace_collision_type c = c)
  /\ replace_collision_type (replace_collision_type c)
     = replace_collision_type c.
Proof.
  assert (K : forall s,
             occurs "?" (str_replace "?" "Unattended Vehicle" s) = false)
    by (intros s; now apply str_replace_clears).
  split; [|split].
  - destruct c as [t|q|]; simpl; intros s H; try discriminate.
    injection H as <-. apply K.
  - intros s -> H. simpl. now rewrite str_replace_absent.
  - destruct c as [t|q|]; simpl; try reflexivity.
    now rewrite (str_replace_absent _ _ _ (K t)).
Qed.

(** ** The run of the panel, with its table *)

Lemma display_analysis_shown (std : list Q -> option Q)
      (rows : list record) (ui : selections) :
  let data := read_csv rows in
  let selected := filter (fun x => row_selected ui (snd x)) data in
  let excluded := filter (fun x => negb (row_selected ui (snd x))) data in
  exists out,
    display_analysis std rows ui = Ok out
    /\ warning out = (shape0 selected <=? 10)%nat
    /\ description_table out = shown_table selected excluded data
    /\ distribution_plots selected = Ok (distribution out).
Proof.
  intros data selected excluded.
  destruct (distribution_plots_total selected) as [plots Hplots].
  eexists. split; [apply display_analysis_run; exact Hplots|].
  cbn [warning description_table distribution]. now repeat split.
Qed.

(** X4.  The bar comparison always gets exactly two rows of the table,
    the median first and the average second (the order of the table,
    not the order in which the code names them), each with its three
    values. *)
Theorem bar_chart_rows (std : list Q -> option Q) (rows : list record)
        (ui : selections) :
  exists out selected excluded,
    display_analysis std rows ui = Ok out
    /\ selected_data (read_csv rows) ui = Ok selected
    /\ excluded_data (read_csv rows) ui = Ok excluded
    /\ plotly_filtered_claims_bar (description_table out)
       = [ table_row 5 "Median Value" (fun s => quantile s (1 # 2))
                     selected excluded (read_csv rows);
           table_row 1 "Average Value" series_mean
                     selected excluded (read_csv rows) ].
Proof.
  destruct (display_analysis_shown std rows ui) as (out & E & _ & T & _).
  exists out. do 2 eexists.
  split; [exact E|].
  split; [apply selected_data_filter|].
  split; [apply excluded_data_filter|].
  rewrite T. reflexivity.
Qed.

(** ** Sorted values *)

Lemma insert_sorted_In (x y : Q) (l : list Q) :
  In y (insert_sorted x l) <-> y = x \/ In y l.
Proof.
  induction l as [|z l IH]; simpl.
  - split; intros [H|H]; auto.
  - destruct (Qle_bool x z); simpl.
    + split; intros [H|H]; auto.
    + rewrite IH. split; intros H; tauto.
Qed.

Lemma sort_values_In (y : Q) (s : list Q) :
  In y (sort_values s) <-> In y s.
Proof.
  induction s as [|x s IH]; simpl; [tauto|].
  rewrite insert_sorted_In, IH. split; intros [H|H]; auto.
Qed.

Lemma insert_sorted_sorted (x : Q) (l : list Q) :
  StronglySorted Qle l -> StronglySorted Qle (insert_sorted x l).
Proof.
  induction 1 as [|y l Hs IH Hy]; simpl.
  - constructor; constructor.
  - destruct (Qle_bool x y) eqn:E.
    + apply Qle_bool_iff in E. constructor; [now constructor|].
      constructor; [assumption|].
      eapply Forall_impl; [|exact Hy].
      intros z Hz. eapply Qle_trans; eassumption.
    + assert (L : y <= x).
      { apply Qlt_le_weak, Qnot_le_lt. intros C.
        apply Qle_bool_iff in C. congruence. }
      constructor; [assumption|].
      apply Forall_forall. intros z Hz.
      apply insert_sorted_In in Hz. destruct Hz as [->|Hz]; [assumption|].
      rewrite Forall_forall in Hy. now apply Hy.
Qed.

Lemma sort_values_sorted (s : list Q) : StronglySorted Qle (sort_values s).
Proof.
  induction s as [|x s IH]; simpl; [constructor|].
  now apply insert_sorted_sorted.
Qed.

Lemma sorted_nth (a : list Q) (d : Q) :
  StronglySorted Qle a ->
  forall i k, (i <= k)%nat -> (k < List.length a)%nat ->
              nth i a d <= nth k a d.
Proof.
  induction 1 as [|y l Hs IH Hy]; intros i k Hik Hk; simpl in Hk; [lia|].
  destruct i as [|i], k as [|k]; simpl; try lia.
  - apply Qle_refl.
  - rewrite Forall_forall in Hy. apply Hy, nth_In. lia.
  - apply IH; lia.
Qed.

(** ** Quantiles of sorted values *)

Lemma quantile_interpolate (s : list Q) (q : Q) :
  s <> [] ->
  quantile s q
  = Some (interpolate (sort_values s) (hd 0 (sort_values s))
                      (inject_Z (Z.of_nat (List.length s - 1)) * q)).
Proof.
  intros H. unfold quantile.
  rewrite <- (sort_values_length s).
  destruct (sort_values s) as [|x a] eqn:E.
  - apply (f_equal (@List.length Q)) in E.
    rewrite sort_values_length in E. destruct s; [congruence|discriminate].
  - reflexivity.
Qed.

Lemma position_floor (n : nat) (h : Q) :
  0 <= h -> h <= inject_Z (Z.of_nat n) ->
  (0 <= Qfloor h)%Z /\ (Z.to_nat (Qfloor h) <= n)%nat
  /\ 0 <= h - inject_Z (Qfloor h) /\ h - inject_Z (Qfloor h) < 1.
Proof.
  intros H0 Hn.
  assert (F0 : (0 <= Qfloor h)%Z).
  { change 0%Z with (Qfloor 0). now apply Qfloor_resp_le. }
  assert (Fn : (Qfloor h <= Z.of_nat n)%Z).
  { rewrite <- (Qfloor_Z (Z.of_nat n)). now apply Qfloor_resp_le. }
  pose proof (Qfloor_le h) as L. pose proof (Qlt_floor h) as U.
  rewrite inject_Z_plus in U. change (inject_Z 1) with 1 in U.
  repeat split; try lia; lra.
Qed.

(** The interpolated value lies between its two neighbours. *)
Lemma interpolate_between (a : list Q) (x h : Q) :
  StronglySorted Qle a -> a <> [] ->
  0 <= h -> h <= inject_Z (Z.of_nat (List.length a - 1)) ->
  nth (Z.to_nat (Qfloor h)) a x <= interpolate a x h
  /\ interpolate a x h
     <= nth (Nat.min (S (Z.to_nat (Qfloor h))) (List.length a - 1)) a x.
Proof.
  intros Hs Ha H0 Hn.
  destruct (position_floor _ h H0 Hn) as (F0 & Fn & G0 & G1).
  assert (Len : (0 < List.length a)%nat) by (destruct a; simpl; [congruence|lia]).
  unfold interpolate.
  set (j := Z.to_nat (Qfloor h)) in *.
  set (g := h - inject_Z (Qfloor h)) in *.
  assert (L : nth j a x <= nth (Nat.min (S j) (List.length a - 1)) a x)
    by (apply sorted_nth; [assumption|lia|lia]).
  set (lo := nth j a x) in *.
  set (hi := nth (Nat.min (S j) (List.length a - 1)) a x) in *.
  split; nra.
Qed.

(** The interpolated value grows with the position. *)
Lemma interpolate_monotone (a : list Q) (x h1 h2 : Q) :
  StronglySorted Qle a -> a <> [] ->
  0 <= h1 -> h1 <= h2 -> h2 <= inject_Z (Z.of_nat (List.length a - 1)) ->
  interpolate a x h1 <= interpolate a x h2.
Proof.
  intros Hs Ha H0 H12 Hn.
  assert (H1n : h1 <= inject_Z (Z.of_nat (List.length a - 1))) by lra.
  assert (H20 : 0 <= h2) by lra.
  destruct (position_floor _ h1 H0 H1n) as (F1 & N1 & G10 & G11).
  destruct (position_floor _ h2 H20 Hn) as (F2 & N2 & G20 & G21).
  assert (Len : (0 < List.length a)%nat) by (destruct a; simpl; [congruence|lia]).
  pose proof (Qfloor_resp_le _ _ H12) as FF.
  destruct (Z.eq_dec (Qfloor h1) (Qfloor h2)) as [E|NE].
  - unfold interpolate. rewrite <- E in *.
    set (j := Z.to_nat (Qfloor h1)) in *.
    assert (L : nth j a x <= nth (Nat.min (S j) (List.length a - 1)) a x)
      by (apply sorted_nth; [assumption|lia|lia]).
    set (lo := nth j a x) in *.
    set (hi := nth (Nat.min (S j) (List.length a - 1)) a x) in *.
    set (f := inject_Z (Qfloor h1)) in *.
    nra.
  - destruct (interpolate_between a x h1 Hs Ha H0 H1n) as [_ U].
    destruct (interpolate_between a x h2 Hs Ha H20 Hn) as [L _].
    eapply Qle_trans; [exact U|]. eapply Qle_trans; [|exact L].
    apply sorted_nth; [assumption|lia|lia].
Qed.

Lemma position_in_range (n : nat) (q : Q) :
  0 <= q -> q <= 1 ->
  0 <= inject_Z (Z.of_nat n) * q
  /\ inject_Z (Z.of_nat n) * q <= inject_Z (Z.of_nat n).
Proof.
  intros H0 H1.
  assert (P : 0 <= inject_Z (Z.of_nat n)).
  { change 0 with (inject_Z 0). rewrite <- Zle_Qle. lia. }
  split; nra.
Qed.

(** For fractions between 0 and 1 the quantile grows with the
    fraction. *)
Lemma quantile_monotone (s : list Q) (q1 q2 : Q) :
  s <> [] -> 0 <= q1 -> q1 <= q2 -> q2 <= 1 ->
  exists v1 v2,
    quantile s q1 = Some v1 /\ quantile s q2 = Some v2 /\ v1 <= v2.
Proof.
  intros Hs H0 H12 H1.
  do 2 eexists.
  split; [now apply quantile_interpolate|].
  split; [now apply quantile_interpolate|].
  assert (NE : sort_values s <> []).
  { intros C. apply (f_equal (@List.length Q)) in C.
    rewrite sort_values_length in C. destruct s; [congruence|discriminate]. }
  assert (P : 0 <= inject_Z (Z.of_nat (List.length s - 1))).
  { change 0 with (inject_Z 0). rewrite <- Zle_Qle. lia. }
  apply interpolate_monotone.
  - apply sort_values_sorted.
  - exact NE.
  - nra.
  - nra.
  - rewrite sort_values_length. nra.
Qed.

(** ** The statistics of one population, in order *)

Lemma nonempty_length {A : Type} (s : list A) :
  s <> [] -> (0 < List.length s)%nat.
Proof.
  destruct s; simpl; [congruence|lia].
Qed.

Lemma quantile_within (s : list Q) (q : Q) :
  s <> [] -> 0 <= q -> q <= 1 ->
  exists mn v mx,
    series_min s = Some mn /\ quantile s q = Some v
    /\ series_max s = Some mx /\ mn <= v /\ v <= mx.
Proof.
  intros Hs H0 H1.
  pose proof (nonempty_length s Hs) as Len.
  assert (NE : sort_values s <> []).
  { intros C. apply (f_equal (@List.length Q)) in C.
    rewrite sort_values_length in C. simpl in C. lia. }
  destruct (position_in_range (List.length s - 1) q H0 H1) as [P0 Pn].
  set (h := inject_Z (Z.of_nat (List.length s - 1)) * q) in *.
  set (a := sort_values s) in *.
  assert (La : List.length a = List.length s) by apply sort_values_length.
  assert (Pa : h <= inject_Z (Z.of_nat (List.length a - 1)))
    by now rewrite La.
  destruct (interpolate_between a (hd 0 a) h (sort_values_sorted s) NE P0 Pa)
    as [L U].
  destruct (position_floor _ h P0 Pa) as (_ & Fn & _ & _).
  assert (I1 : In (nth (Z.to_nat (Qfloor h)) a (hd 0 a)) s)
    by (apply sort_values_In, nth_In; fold a; lia).
  assert (I2 : In (nth (Nat.min (S (Z.to_nat (Qfloor h)))
                                (List.length a - 1)) a (hd 0 a)) s)
    by (apply sort_values_In, nth_In; fold a; lia).
  destruct (series_min_le _ _ I1) as (mn & Hmn & Lmn).
  destruct (series_max_ge _ _ I2) as (mx & Hmx & Lmx).
  exists mn, (interpolate a (hd 0 a) h), mx.
  split; [exact Hmn|]. split; [now apply quantile_interpolate|].
  split; [exact Hmx|]. split; eapply Qle_trans; eassumption.
Qed.

Lemma series_mean_value (s : list Q) :
  s <> [] ->
  series_mean s
  = Some (fold_right Qplus 0 s / inject_Z (Z.of_nat (List.length s))).
Proof.
  destruct s; [congruence|reflexivity].
Qed.

Lemma series_min_defined (s : list Q) :
  s <> [] -> exists m, series_min s = Some m.
Proof.
  destruct s as [|x t]; [congruence|]. intros _. eexists. reflexivity.
Qed.

(** ** Rounding keeps the order *)

(** Reads the outcome of a comparison of two rationals as an order. *)
Ltac compared C :=
  match type of C with
  | _ = Eq => apply Qeq_alt in C
  | _ = Lt => apply Qlt_alt in C
  | _ = Gt => apply Qgt_alt in C
  end.

Lemma rint_monotone (x y : Q) : x <= y -> (rint x <= rint y)%Z.
Proof.
  intros H. pose proof (Qfloor_resp_le x y H) as F.
  assert (Bx : (Qfloor x <= rint x <= Qfloor x + 1)%Z).
  { unfold rint. destruct (Qcompare _ _); [destruct (Z.even _)| |]; lia. }
  assert (By : (Qfloor y <= rint y <= Qfloor y + 1)%Z).
  { unfold rint. destruct (Qcompare _ _); [destruct (Z.even _)| |]; lia. }
  destruct (Z.eq_dec (Qfloor x) (Qfloor y)) as [E|NE]; [|lia].
  unfold rint in *. rewrite <- E in *.
  set (f := Qfloor x) in *.
  destruct (Qcompare (x - inject_Z f) (1 # 2)) eqn:Cx;
    destruct (Qcompare (y - inject_Z f) (1 # 2)) eqn:Cy;
    compared Cx; compared Cy;
    try (destruct (Z.even f)); try lia; exfalso; lra.
Qed.

Lemma round2_monotone (x y : Q) :
  x <= y ->
  exists rx ry,
    round2 (Some x) = Some rx /\ round2 (Some y) = Some ry /\ rx <= ry.
Proof.
  intros H. do 2 eexists. split; [reflexivity|]. split; [reflexivity|].
  unfold Qdiv. apply Qmult_le_compat_r; [|discriminate].
  rewrite <- Zle_Qle. apply rint_monotone. lra.
Qed.

(** A whole number is shown as it is. *)
Lemma round2_whole (n : Z) :
  exists c, round2 (Some (inject_Z n)) = Some c /\ c == inject_Z n.
Proof.
  eexists. split; [reflexivity|].
  assert (E : inject_Z n * 100 == inject_Z (n * 100))
    by (rewrite inject_Z_mult; reflexivity).
  assert (F : Qfloor (inject_Z n * 100) = (n * 100)%Z)
    by (rewrite E; apply Qfloor_Z).
  unfold rint. rewrite F.
  destruct (Qcompare (inject_Z n * 100 - inject_Z (n * 100)) (1 # 2)) eqn:C;
    compared C.
  - exfalso. lra.
  - rewrite inject_Z_mult. change (inject_Z 100) with 100. field.
  - exfalso. lra.
Qed.

(** The seven shown values of a population that is not empty. *)
Lemma column_summary_ordered (s : list Q) :
  s <> [] ->
  summary_ordered
    (map (fun stat => round2 (stat s))
         [ series_count; series_min; (fun s => quantile s (1 # 4));
           (fun s => quantile s (1 # 2)); series_mean;
           (fun s => quantile s (3 # 4)); series_max ]).
Proof.
  intros Hs.
  destruct (quantile_within s (1 # 4) Hs) as (mn & v25 & mx & Hmn & H25 & Hmx & L1 & _);
    [lra|lra|].
  destruct (quantile_monotone s (1 # 4) (1 # 2) Hs) as (a1 & v50 & A1 & H50 & L2);
    [lra|lra|lra|].
  destruct (quantile_monotone s (1 # 2) (3 # 4) Hs) as (a2 & v75 & A2 & H75 & L3);
    [lra|lra|lra|].
  destruct (quantile_within s (3 # 4) Hs) as (m1 & a3 & m2 & _ & A3 & M2 & _ & L4);
    [lra|lra|].
  pose proof (series_mean_value s Hs) as Havg.
  rewrite H25 in A1. injection A1 as <-.
  rewrite H50 in A2. injection A2 as <-.
  rewrite H75 in A3. injection A3 as <-.
  rewrite Hmx in M2. injection M2 as <-.
  cbn [map]. rewrite Hmn, H25, H50, H75, Hmx, Havg.
  unfold summary_ordered, series_count.
  destruct (round2_monotone _ _ L1) as (r1 & r2 & R1 & R2 & O1).
  destruct (round2_monotone _ _ L2) as (r2' & r3 & R2' & R3 & O2).
  destruct (round2_monotone _ _ L3) as (r3' & r4 & R3' & R4 & O3).
  destruct (round2_monotone _ _ L4) as (r4' & r5 & R4' & R5 & O4).
  rewrite R2 in R2'. injection R2' as <-.
  rewrite R3 in R3'. injection R3' as <-.
  rewrite R4 in R4'. injection R4' as <-.
  eexists. exists r1, r2, r3. eexists. exists r4, r5.
  rewrite R1, R2, R3, R4, R5.
  split; [reflexivity|]. repeat split; assumption.
Qed.

(** ** The columns of the table *)

Lemma shown_table_selected (selected excluded data : frame record) :
  map (fun r => Selected_Data (snd r)) (shown_table selected excluded data)
  = map (fun stat => round2 (stat (column claim_amount selected)))
        [ series_count; series_min; (fun s => quantile s (1 # 4));
          (fun s => quantile s (1 # 2)); series_mean;
          (fun s => quantile s (3 # 4)); series_max ].
Proof. reflexivity. Qed.

Lemma shown_table_excluded (selected excluded data : frame record) :
  map (fun r => Excluded_Data (snd r)) (shown_table selected excluded data)
  = map (fun stat => round2 (stat (column claim_amount excluded)))
        [ series_count; series_min; (fun s => quantile s (1 # 4));
          (fun s => quantile s (1 # 2)); series_mean;
          (fun s => quantile s (3 # 4)); series_max ].
Proof. reflexivity. Qed.

Lemma shown_table_all (selected excluded data : frame record) :
  map (fun r => All_Data (snd r)) (shown_table selected excluded data)
  = map (fun stat => round2 (stat (column claim_amount data)))
        [ series_count; series_min; (fun s => quantile s (1 # 4));
          (fun s => quantile s (1 # 2)); series_mean;
          (fun s => quantile s (3 # 4)); series_max ].
Proof. reflexivity. Qed.

Lemma column_of_nonempty {A B : Type} (f : A -> B) (d : frame A) :
  d <> [] -> column f d <> [].
Proof.
  destruct d; [congruence|discriminate].
Qed.

Lemma column_length {A B : Type} (f : A -> B) (d : frame A) :
  List.length (column f d) = List.length d.
Proof.
  apply length_map.
Qed.

(** X5.  In every column of the table whose population has at least one
    row, the seven cells are present and, as shown (rounded), the
    minimum, the 25th percentile, the median, the 75th percentile and the
    maximum are in increasing order. *)
Theorem table_columns_ordered (std : list Q -> option Q)
        (rows : list record) (ui : selections) :
  exists out selected excluded,
    display_analysis std rows ui = Ok out
    /\ selected_data (read_csv rows) ui = Ok selected
    /\ excluded_data (read_csv rows) ui = Ok excluded
    /\ (selected <> [] ->
        summary_ordered
          (map (fun r => Selected_Data (snd r)) (description_table out)))
    /\ (excluded <> [] ->
        summary_ordered
          (map (fun r => Excluded_Data (snd r)) (description_table out)))
    /\ (rows <> [] ->
        summary_ordered
          (map (fun r => All_Data (snd r)) (description_table out))).
Proof.
  destruct (display_analysis_shown std rows ui) as (out & E & _ & T & _).
  exists out. do 2 eexists.
  split; [exact E|].
  split; [apply selected_data_filter|].
  split; [apply excluded_data_filter|].
  rewrite T. split; [|split]; intros H.
  - rewrite shown_table_selected.
    now apply column_summary_ordered, column_of_nonempty.
  - rewrite shown_table_excluded.
    now apply column_summary_ordered, column_of_nonempty.
  - rewrite shown_table_all.
    apply column_summary_ordered, column_of_nonempty.
    intros C. apply (f_equal (@List.length _)) in C.
    fold (shape0 (read_csv rows)) in C. rewrite shape0_read_csv in C.
    destruct rows; [congruence|discriminate].
Qed.

(** X6.  The first row of the table adds up: the shown number of
    selected rows plus the shown number of excluded rows is the shown
    number of all rows, which is the number of rows of the dataset. *)
Theorem table_counts_add_up (std : list Q -> option Q)
        (rows : list record) (ui : selections) :
  exists out cs ce ca,
    display_analysis std rows ui = Ok out
    /\ shown_count
         (map (fun r => Selected_Data (snd r)) (description_table out))
       = Some cs
    /\ shown_count
         (map (fun r => Excluded_Data (snd r)) (description_table out))
       = Some ce
    /\ shown_count
         (map (fun r => All_Data (snd r)) (description_table out))
       = Some ca
    /\ cs + ce == ca
    /\ ca == inject_Z (Z.of_nat (List.length rows)).
Proof.
  destruct (display_analysis_shown std rows ui) as (out & E & _ & T & _).
  set (data := read_csv rows) in *.
  set (f := fun x : nat * record => row_selected ui (snd x)) in *.
  destruct (round2_whole (Z.of_nat (List.length (filter f data))))
    as (cs & Rs & Es).
  destruct (round2_whole
              (Z.of_nat (List.length (filter (fun x => negb (f x)) data))))
    as (ce & Re & Ee).
  destruct (round2_whole (Z.of_nat (List.length data))) as (ca & Ra & Ea).
  exists out, cs, ce, ca. split; [exact E|]. rewrite T.
  unfold shown_table, table_row, series_count. cbn [map snd shown_count
    Selected_Data Excluded_Data All_Data].
  rewrite !column_length.
  split; [exact Rs|]. split; [exact Re|]. split; [exact Ra|].
  pose proof (filter_split_length f data) as L.
  split.
  - rewrite Es, Ee, Ea, <- inject_Z_plus, <- Nat2Z.inj_add, L. reflexivity.
  - rewrite Ea. fold (shape0 data). unfold data.
    now rewrite shape0_read_csv.
Qed.

(** ** The trimmed plot *)

Lemma fold_max_In (t : list Q) (x : Q) :
  In (fold_left (fun m y => if Qle_bool m y then y else m) t x) (x :: t).
Proof.
  revert x. induction t as [|z t IH]; intros x; simpl; [now left|].
  destruct (Qle_bool x z).
  - right. apply IH.
  - destruct (IH x) as [H|H]; [now left|right; now right].
Qed.

Lemma series_max_In (s : list Q) (m : Q) :
  series_max s = Some m -> In m s.
Proof.
  destruct s as [|x t]; simpl; [discriminate|].
  intros H. injection H as <-. apply fold_max_In.
Qed.

Lemma filter_length_lt {A : Type} (f : A -> bool) (l : list A) (x : A) :
  In x l -> f x = false -> (List.length (filter f l) < List.length l)%nat.
Proof.
  induction l as [|y l IH]; simpl; [contradiction|].
  pose proof (filter_length_le f l) as Le.
  intros [->|H] Hx.
  - rewrite Hx. lia.
  - specialize (IH H Hx). destruct (f y); simpl; lia.
Qed.

(** X7.  Whenever the plots are drawn "without Extreme Outliers", the
    90th percentile is strictly below the largest selected claim: every
    plotted row is a selected row with a smaller claim than the largest,
    the rows holding the largest claim are left out, and so fewer rows
    are plotted than are selected. *)
Theorem trimmed_plot_drops_maximum (std : list Q -> option Q)
        (rows : list record) (ui : selections) (out : output)
        (plotted : frame record) :
  display_analysis std rows ui = Ok out ->
  distribution out
  = Some (plotted, "Selected Data without Extreme Outliers") ->
  exists selected mx,
    selected_data (read_csv rows) ui = Ok selected
    /\ series_max (column claim_amount selected) = Some mx
    /\ (forall x, In x plotted ->
                  In x selected /\ claim_amount (snd x) < mx)
    /\ (exists x, In x selected /\ claim_amount (snd x) = mx
                  /\ ~ In x plotted)
    /\ (List.length plotted < List.length selected)%nat.
Proof.
  intros Hrun Hd.
  destruct (display_analysis_shown std rows ui) as (out' & E & _ & _ & P).
  rewrite Hrun in E. injection E as <-.
  set (selected := filter (fun x => row_selected ui (snd x)) (read_csv rows))
    in *.
  rewrite Hd in P.
  destruct (Nat.lt_ge_cases (shape0 selected) 10) as [Hs|Hs].
  { rewrite (distribution_plots_small _ Hs) in P. discriminate. }
  destruct (distribution_plots_large _ Hs)
    as (mx & p90 & p75 & Hmx & H90 & H75 & Q).
  rewrite Q in P.
  destruct (Qlt_bool (p90 - p75) (mx - p90)) eqn:Skew;
    [|injection P as _ C; discriminate].
  injection P as <-. apply Qlt_bool_iff in Skew.
  assert (NE : column claim_amount selected <> []).
  { apply column_nonempty. lia. }
  destruct (quantile_monotone _ (3 # 4) (9 # 10) NE)
    as (v1 & v2 & V1 & V2 & L); [lra|lra|lra|].
  rewrite H75 in V1. rewrite H90 in V2.
  injection V1 as <-. injection V2 as <-.
  assert (Below : p90 < mx) by lra.
  apply series_max_In in Hmx as Hin.
  unfold column in Hin. apply in_map_iff in Hin.
  destruct Hin as (x & Hx & Hxin).
  assert (Out : Qlt_bool (claim_amount (snd x)) p90 = false).
  { destruct (Qlt_bool (claim_amount (snd x)) p90) eqn:C; [|reflexivity].
    apply Qlt_bool_iff in C. rewrite Hx in C. lra. }
  exists selected, mx.
  split; [apply selected_data_filter|]. split; [exact Hmx|].
  split; [|split].
  - intros y Hy. apply filter_In in Hy. destruct Hy as [Hy1 Hy2].
    apply Qlt_bool_iff in Hy2. split; [exact Hy1|lra].
  - exists x. split; [exact Hxin|]. split; [exact Hx|].
    intros C. apply filter_In in C. destruct C as [_ C]. congruence.
  - now apply (filter_length_lt _ _ x).
Qed.

(** ** What the boxes and the slider can do *)

Lemma cell_eqb_missing (c : cell) : cell_eqb c NaN = false.
Proof.
  destruct c; reflexivity.
Qed.

Lemma filter_nothing {A : Type} (f : A -> bool) (d : list A) :
  (forall x, f x = false) -> filter f d = [].
Proof.
  intros H. induction d as [|x d IH]; simpl; [reflexivity|].
  now rewrite H.
Qed.

(** X8.  Choosing the missing-value entry that a box offers matches no
    row: with the entry chosen in any of the twelve boxes, whatever the
    other boxes and the slider say, no row is selected. *)
Theorem missing_option_selects_nothing (data : frame record)
        (ui : selections) :
  In (Some NaN) (chosen_options ui) -> selected_data data ui = Ok [].
Proof.
  intros H. rewrite selected_data_filter. f_equal.
  apply filter_nothing. intros x.
  destruct (row_selected ui (snd x)) eqn:R; [exfalso|reflexivity].
  unfold row_selected in R. rewrite !andb_true_iff in R.
  destruct R as [[[[[[[[[[[[Ra R1] R2] R3] R4] R5] R6] R7] R8] R9] R10] R11]
                   R12].
  unfold chosen_options in H. simpl in H.
  repeat (destruct H as [H|H];
          [rewrite H in *; unfold field_pass in *; cbn [truthy] in *;
           rewrite cell_eqb_missing in *; discriminate|]).
  contradiction.
Qed.

Lemma filter_sub {A : Type} (f g : A -> bool) (d : list A) :
  (forall x, f x = true -> g x = true) ->
  (forall x, In x (filter f d) -> In x (filter g d))
  /\ (List.length (filter f d) <= List.length (filter g d))%nat.
Proof.
  intros H. split.
  - intros x Hx. apply filter_In in Hx. apply filter_In.
    destruct Hx as [H1 H2]. split; [exact H1|now apply H].
  - induction d as [|x d IH]; simpl; [lia|].
    destruct (f x) eqn:Fx.
    + rewrite (H x Fx). simpl. lia.
    + destruct (g x); simpl; lia.
Qed.

Lemma row_selected_age_only (lo hi : Z) (r : record) :
  row_selected (age_only lo hi) r = age_pass lo hi r.
Proof.
  unfold row_selected, age_only, field_pass.
  cbn [min_age max_age gender_type_status
      accident_type_type_status collision_type_status
      incident_severity_type_status authorities_contacted_type_status
      state_type_status property_damage_type_status
      bodily_injuries_type_status police_report_available_type_status
      auto_make_type_status auto_model_type_status auto_year_type_status].
  now rewrite !andb_true_r.
Qed.

(** X9.  The select boxes can only remove rows: under any choices in
    the boxes, every selected row is also selected when all boxes are at
    [None] and the slider is left where it is, and the selection is no
    larger. *)
Theorem boxes_only_narrow (data : frame record) (ui : selections) :
  exists selected by_age,
    selected_data data ui = Ok selected
    /\ selected_data data (age_only (min_age ui) (max_age ui)) = Ok by_age
    /\ (forall x, In x selected -> In x by_age)
    /\ (shape0 selected <= shape0 by_age)%nat.
Proof.
  rewrite !selected_data_filter. do 2 eexists.
  split; [reflexivity|]. split; [reflexivity|].
  apply filter_sub. intros x H. rewrite row_selected_age_only.
  unfold row_selected in H. rewrite !andb_true_iff in H. tauto.
Qed.

Lemma age_pass_wider (lo hi lo' hi' : Z) (r : record) :
  (lo' <= lo)%Z -> (hi <= hi')%Z ->
  age_pass lo hi r = true -> age_pass lo' hi' r = true.
Proof.
  intros Hlo Hhi. unfold age_pass, ge_int, le_int.
  destruct (age r) as [q|]; [|discriminate].
  rewrite !andb_true_iff, !Qle_bool_iff.
  rewrite Zle_Qle in Hlo, Hhi. intros [H1 H2]. split; lra.
Qed.

(** X10.  Moving the ends of the slider apart never loses a row: with
    the boxes unchanged, every row selected under an age range is
    selected under any range that contains it. *)
Theorem wider_age_range_keeps_rows (data : frame record) (ui : selections)
        (lo hi : Z) :
  (lo <= min_age ui)%Z -> (max_age ui <= hi)%Z ->
  exists selected wider,
    selected_data data ui = Ok selected
    /\ selected_data data (set_age_range ui lo hi) = Ok wider
    /\ (forall x, In x selected -> In x wider)
    /\ (shape0 selected <= shape0 wider)%nat.
Proof.
  intros Hlo Hhi. rewrite !selected_data_filter. do 2 eexists.
  split; [reflexivity|]. split; [reflexivity|].
  apply filter_sub. intros x H.
  unfold row_selected in *. cbn [set_age_range min_age max_age
      gender_type_status
      accident_type_type_status collision_type_status
      incident_severity_type_status authorities_contacted_type_status
      state_type_status property_damage_type_status
      bodily_injuries_type_status police_report_available_type_status
      auto_make_type_status auto_model_type_status auto_year_type_status].
  rewrite !andb_true_iff in *.
  destruct H as [[[[[[[[[[[[Ra R1] R2] R3] R4] R5] R6] R7] R8] R9] R10] R11]
                   R12].
  repeat split; try assumption.
  now apply (age_pass_wider (min_age ui) (max_age ui)).
Qed.

(** X11.  Every state of the panel writes the note or draws the plots:
    when no plot is drawn the note on the small subset is written, and
    both appear together exactly when ten rows are selected. *)
Theorem note_or_plots (std : list Q -> option Q) (rows : list record)
        (ui : selections) :
  exists out selected,
    display_analysis std rows ui = Ok out
    /\ selected_data (read_csv rows) ui = Ok selected
    /\ (distribution out = None -> warning out = true)
    /\ (warning out = true /\ distribution out <> None
        <-> shape0 selected = 10%nat).
Proof.
  destruct (display_analysis_shown std rows ui) as (out & E & W & _ & P).
  exists out. eexists. split; [exact E|].
  split; [apply selected_data_filter|].
  set (selected := filter (fun x => row_selected ui (snd x)) (read_csv rows))
    in *.
  rewrite W. rewrite Nat.leb_le.
  destruct (Nat.lt_ge_cases (shape0 selected) 10) as [Hs|Hs].
  - rewrite (distribution_plots_small _ Hs) in P. injection P as P.
    rewrite <- P. split; [intros _; lia|].
    split; [intros [_ C]; congruence|lia].
  - destruct (distribution_plots_large _ Hs) as (mx & p90 & p75 & _ & _ & _ & Q).
    rewrite Q in P. injection P as P. rewrite <- P.
    split; [discriminate|].
    split; [intros [H _]; lia|].
    intros H. split; [lia|discriminate].
Qed.

(** ** The entries of the select boxes *)

Lemma cell_same_refl (c : cell) : cell_same c c = true.
Proof.
  destruct c as [s|q|]; simpl.
  - apply String.eqb_refl.
  - apply Qeq_bool_iff. reflexivity.
  - reflexivity.
Qed.

Lemma unique_aux_In (seen s : list cell) (v : cell) :
  In v (unique_aux seen s) -> In v s.
Proof.
  revert seen. induction s as [|c t IH]; intros seen; simpl; [tauto|].
  destruct (existsb (cell_same c) seen).
  - intros H. right. now apply (IH seen).
  - intros [H|H]; [now left|right; now apply (IH (c :: seen))].
Qed.

Lemma unique_aux_fresh (seen s : list cell) (v : cell) :
  In v (unique_aux seen s) -> existsb (cell_same v) seen = false.
Proof.
  revert seen. induction s as [|c t IH]; intros seen; simpl; [tauto|].
  destruct (existsb (cell_same c) seen) eqn:E.
  - apply IH.
  - intros [<-|H]; [exact E|].
    apply IH in H. simpl in H. now apply orb_false_iff in H.
Qed.

Lemma unique_aux_covers (seen s : list cell) (c : cell) :
  In c s ->
  existsb (cell_same c) seen = true
  \/ exists v, In v (unique_aux seen s) /\ cell_same c v = true.
Proof.
  revert seen. induction s as [|c0 t IH]; intros seen; simpl; [tauto|].
  intros Hc. destruct (existsb (cell_same c0) seen) eqn:E.
  - destruct Hc as [<-|Hc]; [now left|now apply IH].
  - destruct Hc as [<-|Hc].
    + right. exists c0. split; [now left|apply cell_same_refl].
    + destruct (IH (c0 :: seen) Hc) as [H|(v & Hv & Sv)].
      * simpl in H. apply orb_true_iff in H. destruct H as [H|H].
        -- right. exists c0. split; [now left|exact H].
        -- now left.
      * right. exists v. split; [now right|exact Sv].
Qed.

Lemma unique_aux_distinct (seen s : list cell) :
  ForallOrdPairs (fun a b => cell_same b a = false) (unique_aux seen s).
Proof.
  revert seen. induction s as [|c t IH]; intros seen; simpl; [constructor|].
  destruct (existsb (cell_same c) seen); [apply IH|].
  constructor; [|apply IH].
  apply Forall_forall. intros v Hv.
  apply unique_aux_fresh in Hv. simpl in Hv.
  now apply orb_false_iff in Hv.
Qed.

(** X12.  A select box built from [unique()] offers [None] first, then
    only values that occur in the column; every value of the column is
    offered (all missing values as one entry), and no value is offered
    twice. *)
Theorem options_offer_the_column (col : record -> cell)
        (data : frame record) :
  hd_error (options col data) = Some None
  /\ options col data = None :: map Some (unique (column col data))
  /\ (forall v, In (Some v) (options col data) ->
                exists x, In x data /\ col (snd x) = v)
  /\ (forall x, In x data ->
                exists v, In (Some v) (options col data)
                          /\ cell_same (col (snd x)) v = true)
  /\ ForallOrdPairs (fun a b => cell_same b a = false)
                    (unique (column col data)).
Proof.
  split; [reflexivity|]. split; [reflexivity|]. split; [|split].
  - intros v [H|H]; [discriminate|].
    apply in_map_iff in H. destruct H as (w & E & Hw). injection E as ->.
    apply unique_aux_In in Hw. unfold column in Hw.
    apply in_map_iff in Hw. destruct Hw as (x & Hx & Hin).
    exists x. now split.
  - intros x Hx.
    assert (Hc : In (col (snd x)) (column col data))
      by (unfold column; apply (in_map (fun y => col (snd y))); exact Hx).
    destruct (unique_aux_covers [] _ _ Hc) as [H|(v & Hv & Sv)];
      [discriminate|].
    exists v. split; [|exact Sv]. right. now apply in_map.
  - apply unique_aux_distinct.
Qed.

Lemma dropna_In (s : list cell) (v : cell) :
  In v (dropna s) <-> In v s /\ is_missing v = false.
Proof.
  unfold dropna. rewrite filter_In. destruct v; simpl; intuition congruence.
Qed.

(** X13.  The box of the contacted authorities never offers the
    missing-value entry: it offers only values of the column that are
    present, and every present value of the column is offered. *)
Theorem options_dropna_offer_present (col : record -> cell)
        (data : frame record) :
  ~ In (Some NaN) (options_dropna col data)
  /\ (forall v, In (Some v) (options_dropna col data) ->
                is_missing v = false
                /\ exists x, In x data /\ col (snd x) = v)
  /\ (forall x, In x data -> is_missing (col (snd x)) = false ->
                exists v, In (Some v) (options_dropna col data)
                          /\ cell_same (col (snd x)) v = true).
Proof.
  assert (A : forall v, In (Some v) (options_dropna col data) ->
                        In v (column col data) /\ is_missing v = false).
  { intros v [H|H]; [discriminate|].
    apply in_map_iff in H. destruct H as (w & E & Hw). injection E as ->.
    apply unique_aux_In in Hw. now apply dropna_In in Hw. }
  split; [|split].
  - intros C. apply A in C. destruct C as [_ C]. discriminate.
  - intros v Hv. destruct (A v Hv) as [Hin Hm]. split; [exact Hm|].
    unfold column in Hin. apply in_map_iff in Hin.
    destruct Hin as (x & Hx & Hin). exists x. now split.
  - intros x Hx Hm.
    assert (Hc : In (col (snd x)) (dropna (column col data))).
    { apply dropna_In. split; [|exact Hm].
      unfold column. apply (in_map (fun y => col (snd y))). exact Hx. }
    destruct (unique_aux_covers [] _ _ Hc) as [H|(v & Hv & Sv)];
      [discriminate|].
    exists v. split; [|exact Sv]. right. now apply in_map.
Qed.

(** ** The initial span of the slider *)

Lemma truncate_monotone (x y : Q) : x <= y -> (truncate x <= truncate y)%Z.
Proof.
  intros H. unfold truncate.
  destruct (Qle_bool 0 x) eqn:Ex; destruct (Qle_bool 0 y) eqn:Ey.
  - now apply Qfloor_resp_le.
  - apply Qle_bool_iff in Ex.
    assert (C : 0 <= y) by lra. apply Qle_bool_iff in C. congruence.
  - apply Qle_bool_iff in Ey.
    assert (X0 : x <= 0).
    { destruct (Qlt_le_dec x 0) as [L|L]; [lra|].
      apply Qle_bool_iff in L. congruence. }
    apply Z.le_trans with 0%Z.
    + change 0%Z with (Qceiling 0). now apply Qceiling_resp_le.
    + change 0%Z with (Qfloor 0). now apply Qfloor_resp_le.
  - now apply Qceiling_resp_le.
Qed.

Lemma series_min_In (s : list Q) (m : Q) : series_min s = Some m -> In m s.
Proof.
  destruct s as [|x t]; simpl; [discriminate|].
  intros H. injection H as <-.
  generalize x. induction t as [|z t IH]; intros y; simpl; [now left|].
  destruct (Qle_bool z y).
  - right. apply IH.
  - destruct (IH y) as [H|H]; [now left|right; now right].
Qed.

(** ** The combined condition *)

(** X15.  Whatever the boxes say, also when all of them are inert, the
    combined condition is a Series with one entry per row of the data
    (never the bare scalar [True]), and the entry of a row tells whether
    its age is within the slider and it passes every box. *)
Theorem combined_condition_is_a_series (data : frame record)
        (ui : selections) :
  exists m,
    all_conditions data ui = Series m
    /\ List.length m = List.length data
    /\ (forall i x, nth_error data i = Some x ->
                    nth_error m i = Some (row_selected ui (snd x))).
Proof.
  rewrite all_conditions_rows. eexists. split; [reflexivity|].
  split; [apply length_map|].
  intros i x H.
  apply (map_nth_error (fun y => row_selected ui (snd y)) i data H).
Qed.

(** ** Claims that are all equal *)

(** X16.  The test of the tail is strict: when ten or more rows are
    selected and their claims are all equal, the two spreads are both
    zero and all selected rows are plotted under "Selected Data". *)
Theorem equal_claims_plot_everything (std : list Q -> option Q)
        (rows : list record) (ui : selections) (selected : frame record)
        (c : Q) :
  selected_data (read_csv rows) ui = Ok selected ->
  (10 <= shape0 selected)%nat ->
  (forall x, In x selected -> claim_amount (snd x) == c) ->
  exists out,
    display_analysis std rows ui = Ok out
    /\ distribution out = Some (selected, "Selected Data").
Proof.
  intros Hsel Hn Hc. rewrite selected_data_filter in Hsel.
  injection Hsel as Hsel.
  destruct (distribution_plots_large selected Hn)
    as (mx & p90 & p75 & Hmx & H90 & H75 & Hplots).
  assert (NE : column claim_amount selected <> [])
    by (apply column_nonempty; lia).
  assert (All : forall v, In v (column claim_amount selected) -> v == c).
  { intros v Hv. unfold column in Hv. apply in_map_iff in Hv.
    destruct Hv as (x & <- & Hx). now apply Hc. }
  destruct (quantile_within _ (9 # 10) NE) as (mn & v & mx' & Hmn & Hv & Hmx' & L1 & L2);
    [lra|lra|].
  destruct (quantile_within _ (3 # 4) NE) as (mn' & w & mx'' & Hmn' & Hw & Hmx'' & L3 & L4);
    [lra|lra|].
  rewrite Hmx in Hmx', Hmx''. injection Hmx' as <-. injection Hmx'' as <-.
  rewrite H90 in Hv. injection Hv as <-.
  rewrite H75 in Hw. injection Hw as <-.
  rewrite Hmn in Hmn'. injection Hmn' as <-.
  pose proof (All _ (series_max_In _ _ Hmx)) as Emx.
  pose proof (All _ (series_min_In _ _ Hmn)) as Emn.
  assert (F : Qlt_bool (p90 - p75) (mx - p90) = false).
  { destruct (Qlt_bool (p90 - p75) (mx - p90)) eqn:E; [|reflexivity].
    apply Qlt_bool_iff in E. lra. }
  rewrite F in Hplots.
  eexists. split.
  { apply display_analysis_run. rewrite Hsel. exact Hplots. }
  reflexivity.
Qed.

(** * The further properties on sample data *)

(** The age 20 is in the first bracket. *)
Lemma age_bracket_interval_sample : age_bracket (Some 20) = Some "15-20".
Proof.
  apply (age_bracket_interval 20 0).
  - repeat constructor.
  - split; [reflexivity|vm_compute; discriminate].
Defined.

(** On the ten sample claims nine rows are plotted. *)
Lemma trimmed_plot_drops_maximum_sample :
  exists selected,
    selected_data (read_csv skewed_rows) (age_only 30 30) = Ok selected
    /\ series_max (column claim_amount selected) = Some 1000
    /\ (List.length
          (filter (fun x => Qlt_bool (claim_amount (snd x)) (1081 # 10))
                  (read_csv skewed_rows))
        < List.length selected)%nat.
Proof.
  destruct (trimmed_plot_drops_maximum no_std skewed_rows (age_only 30 30)
              (mkOutput true
                 (shown_table (read_csv skewed_rows) [] (read_csv skewed_rows))
                 (Some (filter
                          (fun x => Qlt_bool (claim_amount (snd x))
                                             (1081 # 10))
                          (read_csv skewed_rows),
                        "Selected Data without Extreme Outliers")))
              (filter (fun x => Qlt_bool (claim_amount (snd x)) (1081 # 10))
                      (read_csv skewed_rows)))
    as (selected & mx & Hs & Hm & _ & _ & Hl).
  - vm_compute. reflexivity.
  - reflexivity.
  - exists selected. split; [exact Hs|]. split; [|exact Hl].
    rewrite Hm. vm_compute in Hs. injection Hs as <-.
    vm_compute in Hm. injection Hm as <-. reflexivity.
Defined.

(** The missing-value entry chosen in the box of the gender. *)
Lemma missing_option_selects_nothing_sample :
  selected_data (read_csv injury_rows)
    (mkSelections 30 52 (Some NaN) None None None None None None None None
                  None None None)
  = Ok [].
Proof.
  apply missing_option_selects_nothing. left. reflexivity.
Defined.

(** From the ages 35 to 45 to the ages 30 to 52. *)
Lemma wider_age_range_keeps_rows_sample :
  exists selected wider,
    selected_data (read_csv injury_rows) (age_only 35 45) = Ok selected
    /\ selected_data (read_csv injury_rows)
         (set_age_range (age_only 35 45) 30 52) = Ok wider
    /\ (shape0 selected <= shape0 wider)%nat.
Proof.
  destruct (wider_age_range_keeps_rows (read_csv injury_rows)
              (age_only 35 45) 30 52)
    as (selected & wider & Hs & Hw & _ & Hn).
  - vm_compute. discriminate.
  - vm_compute. discriminate.
  - exists selected, wider. repeat split; assumption.
Defined.

(** Ten claims of the same value. *)
Lemma equal_claims_plot_everything_sample :
  exists out,
    display_analysis no_std equal_rows (age_only 30 30) = Ok out
    /\ distribution out = Some (read_csv equal_rows, "Selected Data").
Proof.
  apply (equal_claims_plot_everything no_std equal_rows (age_only 30 30)
           (read_csv equal_rows) 500).
  - reflexivity.
  - vm_compute. apply le_n.
  - intros x Hx. vm_compute in Hx.
    repeat (destruct Hx as [<-|Hx]; [reflexivity|]). contradiction.
Defined.

(** * The panel over the arithmetic of pandas *)

Section Arithmetic.

Variable N : numerics.

Variable std : list Q -> num N.




End Arithmetic.

(** * The panel as first shown *)

Lemma present_In (s : list (option Q)) (q : Q) :
  In q (present s) -> In (Some q) s.
Proof.
  induction s as [|[x|] s IH]; simpl; intros H.
  - contradiction.
  - destruct H as [->|H]; [now left|right; auto].
  - right. auto.
Qed.

Lemma age_of_column (data : frame record) (q : Q) :
  In q (present (column age data)) ->
  exists x, In x data /\ age (snd x) = Some q.
Proof.
  intros H. apply present_In in H. unfold column in H.
  apply in_map_iff in H. destruct H as (x & Hx & Hin).
  exists x. now split.
Qed.

Lemma truncate_in_int64 (q : Q) :
  inject_Z (- 2 ^ 63) <= q -> q < inject_Z (2 ^ 63) ->
  in_int64 (truncate q) = true.
Proof.
  intros Lo Hi. unfold in_int64.
  apply andb_true_iff. split.
  - apply Z.leb_le. rewrite <- (Qfloor_Z (- 2 ^ 63)).
    unfold truncate. destruct (Qle_bool 0 q).
    + now apply Qfloor_resp_le.
    + apply Z.le_trans with (Qfloor q); [now apply Qfloor_resp_le|].
      pose proof (Qfloor_le q) as F. pose proof (Qle_ceiling q) as C.
      rewrite Zle_Qle. lra.
  - apply Z.ltb_lt. unfold truncate. destruct (Qle_bool 0 q) eqn:E.
    + rewrite Zlt_Qlt. pose proof (Qfloor_le q). lra.
    + assert (Q0 : q <= 0).
      { destruct (Qlt_le_dec q 0) as [L|L]; [lra|].
        apply Qle_bool_iff in L. congruence. }
      apply Z.le_lt_trans with 0%Z; [|reflexivity].
      change 0%Z with (Qceiling 0). now apply Qceiling_resp_le.
Qed.

(** When the panel is first shown its state is the slider at the cast
    minimum and maximum of the ages, every box at [None]; and the file
    has a row. *)
Lemma default_selections_span (unrepresentable : option Q -> Z)
      (data : frame record) (ui : selections) :
  default_selections unrepresentable data = Ok ui ->
  data <> []
  /\ ui = age_only
            (astype_int64 unrepresentable
                          (series_min (present (column age data))))
            (astype_int64 unrepresentable
                          (series_max (present (column age data)))).
Proof.
  unfold default_selections, slider_default.
  destruct data as [|x d]; cbn [bind]; [discriminate|].
  intros H. injection H as <-. split; [discriminate|reflexivity].
Qed.

(** With all ages within the 64-bit range, the initial span contains
    every whole-number age of the file. *)
Lemma default_span_covers (unrepresentable : option Q -> Z)
      (data : frame record) (x : nat * record) (q : Q) (z : Z) :
  (forall y a, In y data -> age (snd y) = Some a ->
               inject_Z (- 2 ^ 63) <= a /\ a < inject_Z (2 ^ 63)) ->
  In x data -> age (snd x) = Some q -> q == inject_Z z ->
  age_pass
    (astype_int64 unrepresentable (series_min (present (column age data))))
    (astype_int64 unrepresentable (series_max (present (column age data))))
    (snd x) = true.
Proof.
  intros Range Hin Ha Hq.
  assert (P : In q (present (column age data))).
  { apply in_present. unfold column. rewrite <- Ha.
    apply (in_map (fun y => age (snd y))). exact Hin. }
  destruct (series_min_le _ _ P) as (m & Hm & Lm).
  destruct (series_max_ge _ _ P) as (M & HM & LM).
  destruct (age_of_column data m (series_min_In _ _ Hm)) as (y1 & I1 & A1).
  destruct (age_of_column data M (series_max_In _ _ HM)) as (y2 & I2 & A2).
  destruct (Range y1 m I1 A1) as [R1 R2].
  destruct (Range y2 M I2 A2) as [R3 R4].
  rewrite Hm, HM. cbn [astype_int64].
  rewrite (truncate_in_int64 m R1 R2), (truncate_in_int64 M R3 R4).
  apply (age_pass_whole _ _ _ q z Ha Hq).
  - apply truncate_lower. now rewrite <- Hq.
  - apply truncate_upper. now rewrite <- Hq.
Qed.

(** C7, as amended.  On a file with at least one row, with every select
    box at [None] and the slider at its initial span: every selected row
    has an age, so a row without an age is never selected; when the ages
    of the file are within the 64-bit range every row whose age is a
    whole number is selected; and when moreover every age is present and
    whole, the combined condition is true on every row and the selected
    rows are the full dataset. *)
Theorem inert_selection (unrepresentable : option Q -> Z)
        (rows : list record) (ui : selections) :
  default_selections unrepresentable (read_csv rows) = Ok ui ->
  exists selected,
    selected_data (read_csv rows) ui = Ok selected
    /\ (forall x, In x selected ->
                  In x (read_csv rows) /\ age (snd x) <> None)
    /\ ((forall y a, In y (read_csv rows) -> age (snd y) = Some a ->
                     inject_Z (- 2 ^ 63) <= a /\ a < inject_Z (2 ^ 63)) ->
        (forall x q z,
            In x (read_csv rows) -> age (snd x) = Some q ->
            q == inject_Z z -> In x selected)
        /\ ((forall x, In x (read_csv rows) ->
                       exists q z, age (snd x) = Some q /\ q == inject_Z z) ->
            all_conditions (read_csv rows) ui
            = Series (map (fun _ => true) (read_csv rows))
            /\ selected = read_csv rows)).
Proof.
  intros Hui. apply default_selections_span in Hui.
  destruct Hui as [_ ->]. set (data := read_csv rows).
  rewrite selected_data_filter.
  eexists. split; [reflexivity|]. split.
  - intros x H. apply filter_In in H. destruct H as [Hin Hsel].
    split; [assumption|].
    rewrite row_selected_age_only in Hsel.
    now apply age_pass_present in Hsel.
  - intros Range.
    assert (W : forall x q z,
               In x data -> age (snd x) = Some q -> q == inject_Z z ->
               row_selected
                 (age_only
                    (astype_int64 unrepresentable
                       (series_min (present (column age data))))
                    (astype_int64 unrepresentable
                       (series_max (present (column age data)))))
                 (snd x) = true).
    { intros x q z Hin Ha Hq. rewrite row_selected_age_only.
      now apply (default_span_covers unrepresentable data x q z). }
    split.
    + intros x q z Hin Ha Hq. apply filter_In. split; [assumption|].
      now apply (W x q z).
    + intros Hall.
      assert (T : forall x, In x data ->
                  row_selected
                    (age_only
                       (astype_int64 unrepresentable
                          (series_min (present (column age data))))
                       (astype_int64 unrepresentable
                          (series_max (present (column age data)))))
                    (snd x) = true).
      { intros x Hin. destruct (Hall x Hin) as (q & z & Ha & Hq).
        now apply (W x q z). }
      split.
      * rewrite all_conditions_rows. f_equal. now apply map_ext_in.
      * now apply filter_all.
Qed.

(** X14.  When the ages of the file are within the 64-bit range and at
    least one age is present, the initial span of the slider is defined,
    does not depend on what the cast makes of a number it cannot
    represent, and contains every whole-number age of the file: its low
    end is at most its high end, and strictly below it as soon as two
    different whole-number ages are present. *)
Theorem slider_default_range (unrepresentable : option Q -> Z)
        (data : frame record) (q : Q) :
  (forall y a, In y data -> age (snd y) = Some a ->
               inject_Z (- 2 ^ 63) <= a /\ a < inject_Z (2 ^ 63)) ->
  In (Some q) (column age data) ->
  exists lo hi,
    slider_default unrepresentable data = Ok (lo, hi)
    /\ (forall other, slider_default other data = Ok (lo, hi))
    /\ (forall a z, In (Some a) (column age data) -> a == inject_Z z ->
                    (lo <= z <= hi)%Z)
    /\ (lo <= hi)%Z
    /\ (forall a b z w,
           In (Some a) (column age data) -> In (Some b) (column age data) ->
           a == inject_Z z -> b == inject_Z w -> (z < w)%Z -> (lo < hi)%Z).
Proof.
  intros Range Hq.
  assert (NE : data <> []) by (destruct data; [contradiction|discriminate]).
  apply in_present in Hq.
  destruct (series_min_le _ _ Hq) as (m & Hm & Lm).
  destruct (series_max_ge _ _ Hq) as (M & HM & LM).
  destruct (age_of_column data m (series_min_In _ _ Hm)) as (y1 & I1 & A1).
  destruct (age_of_column data M (series_max_In _ _ HM)) as (y2 & I2 & A2).
  destruct (Range y1 m I1 A1) as [R1 R2].
  destruct (Range y2 M I2 A2) as [R3 R4].
  assert (S : forall other,
             slider_default other data = Ok (truncate m, truncate M)).
  { intros other. unfold slider_default.
    destruct data as [|x d]; [congruence|].
    rewrite Hm, HM. cbn [astype_int64].
    now rewrite (truncate_in_int64 m R1 R2), (truncate_in_int64 M R3 R4). }
  assert (C : forall a z, In (Some a) (column age data) -> a == inject_Z z ->
                          (truncate m <= z <= truncate M)%Z).
  { intros a z Ha Ea. apply in_present in Ha.
    destruct (series_min_le _ _ Ha) as (m' & Hm' & La).
    destruct (series_max_ge _ _ Ha) as (M' & HM' & Ua).
    rewrite Hm in Hm'. rewrite HM in HM'.
    injection Hm' as <-. injection HM' as <-.
    rewrite !Zle_Qle. split.
    - apply truncate_lower. now rewrite <- Ea.
    - apply truncate_upper. now rewrite <- Ea. }
  exists (truncate m), (truncate M).
  split; [apply S|]. split; [exact S|]. split; [exact C|]. split.
  - apply truncate_monotone. lra.
  - intros a b z w Ha Hb Ea Eb Hzw.
    pose proof (C a z Ha Ea). pose proof (C b w Hb Eb). lia.
Qed.

(** * The amended claims on sample data *)


(** C7 fails on the code.  With every box at [None] and the slider at
    its initial span from 30 to 41, the row without an age is not
    selected; and neither is the row aged 41.5, which the cast of the
    slider's high end cuts off. *)
Lemma default_selection_drops_rows :
  (default_selections int64_min (read_csv missing_age_rows)
   = Ok (age_only 30 41)
   /\ all_conditions (read_csv missing_age_rows) (age_only 30 41)
      = Series [true; true; false]
   /\ selected_data (read_csv missing_age_rows) (age_only 30 41)
      <> Ok (read_csv missing_age_rows))
  /\ (default_selections int64_min (read_csv fractional_age_rows)
      = Ok (age_only 30 41)
      /\ all_conditions (read_csv fractional_age_rows) (age_only 30 41)
         = Series [true; false]).
Proof.
  repeat split. vm_compute. discriminate.
Qed.

(** The rows aged 30 and 41 of the sample with a missing age are
    selected by the panel as first shown. *)
Lemma inert_selection_sample :
  exists selected,
    selected_data (read_csv missing_age_rows) (age_only 30 41) = Ok selected
    /\ In (1%nat, sample_record (Some 41) (Str "Female") (Num 1) 200)
          selected.
Proof.
  destruct (inert_selection int64_min missing_age_rows (age_only 30 41))
    as (selected & E & _ & H).
  - reflexivity.
  - exists selected. split; [exact E|].
    destruct H as [H _].
    + intros y a Hy Ha. vm_compute in Hy.
      destruct Hy as [<-|[<-|[<-|[]]]]; vm_compute in Ha;
        try discriminate; injection Ha as <-;
        split; vm_compute; congruence.
    + apply (H _ 41 41%Z).
      * right. left. reflexivity.
      * reflexivity.
      * reflexivity.
Defined.

(** C9 fails on the code.  The selections that name the own values of
    a record select nothing when its gender is missing, nothing when its
    age is missing, and nothing when its age is not a whole number. *)
Lemma own_values_do_not_select :
  (nth_error missing_gender_rows 0
   = Some (sample_record (Some 30) NaN (Num 1) 100)
   /\ selected_data (read_csv missing_gender_rows)
        (selections_of_record 0 (sample_record (Some 30) NaN (Num 1) 100))
      = Ok [])
  /\ (nth_error missing_age_rows 2
      = Some (sample_record None (Str "Female") (Num 1) 300)
      /\ selected_data (read_csv missing_age_rows)
           (selections_of_record 0
              (sample_record None (Str "Female") (Num 1) 300))
         = Ok [])
  /\ (nth_error fractional_age_rows 1
      = Some (sample_record (Some (83 # 2)) (Str "Male") (Num 1) 200)
      /\ selected_data (read_csv fractional_age_rows)
           (selections_of_record 0
              (sample_record (Some (83 # 2)) (Str "Male") (Num 1) 200))
         = Ok []).
Proof.
  repeat split.
Qed.

(** The ages 30, 41 and 52 give the span from 30 to 52. *)
Lemma slider_default_range_sample :
  exists lo hi,
    slider_default int64_min (read_csv injury_rows) = Ok (lo, hi)
    /\ (lo < hi)%Z.
Proof.
  destruct (slider_default_range int64_min (read_csv injury_rows) 30)
    as (lo & hi & S & _ & _ & _ & Lt).
  - intros y a Hy Ha. vm_compute in Hy.
    destruct Hy as [<-|[<-|[<-|[]]]]; vm_compute in Ha;
      injection Ha as <-; split; vm_compute; congruence.
  - left. reflexivity.
  - exists lo, hi. split; [exact S|].
    apply (Lt 30 41 30%Z 41%Z).
    + left. reflexivity.
    + right. left. reflexivity.
    + reflexivity.
    + reflexivity.
    + reflexivity.
Defined.
